(** * The Jellyfin target of autoscan: resolution and fallback

    A shallow embedding of [targets/jellyfin/jellyfin.go].

    - Go strings are byte strings: [string] of the Standard Library, one
      [ascii] per byte.
    - The functions of Go's packages [strings], [unicode] and [unicode/utf8]
      that the target calls are transcribed in modules of the same names.
    - A call of the remote API changes the state of the remote system and may
      fail; the target's methods are computations [M] that thread that state
      and emit the list of the calls and log records they made, in order. *)

From Stdlib Require Import String Ascii List Bool Arith NArith ZArith Lia.
Import ListNotations.

Local Open Scope string_scope.
Local Open Scope list_scope.
Local Open Scope nat_scope.

(** ** Bytes and slices of a Go string *)

(** [len(s)] *)
Definition len (s : string) : nat := String.length s.

(** [s[i]], as a number; 0 out of range, where Go panics (no caller below
    indexes out of range). *)
Definition byteAt (s : string) (i : nat) : N :=
  match String.get i s with
  | Some c => N_of_ascii c
  | None => 0%N
  end.

(** [s[i:]] *)
Definition sliceFrom (s : string) (i : nat) : string :=
  substring i (len s - i) s.

(** [s[0:i]] *)
Definition sliceTo (s : string) (i : nat) : string :=
  substring 0 i s.

(** [s[i:j]] *)
Definition slice (s : string) (i j : nat) : string :=
  substring i (j - i) s.

(** ** Package unicode/utf8 *)

Module utf8.

Definition RuneError : N := 0xFFFD%N.
Definition RuneSelf : N := 0x80%N.
Definition UTFMax : nat := 4.

Definition maskx : N := 0x3F%N.
Definition mask2 : N := 0x1F%N.
Definition mask3 : N := 0x0F%N.
Definition mask4 : N := 0x07%N.

Definition locb : N := 0x80%N.
Definition hicb : N := 0xBF%N.

(** The entries of the table [first]. *)
Definition xx : N := 0xF1%N.
Definition as_ : N := 0xF0%N.
Definition s1 : N := 0x02%N.
Definition s2 : N := 0x13%N.
Definition s3 : N := 0x03%N.
Definition s4 : N := 0x23%N.
Definition s5 : N := 0x34%N.
Definition s6 : N := 0x04%N.
Definition s7 : N := 0x44%N.

(** [first[b]]: information about the first byte of an encoding. *)
Definition first (b : N) : N :=
  if (b <? 0x80)%N then as_
  else if (b <? 0xC2)%N then xx
  else if (b <? 0xE0)%N then s1
  else if (b =? 0xE0)%N then s2
  else if (b <? 0xED)%N then s3
  else if (b =? 0xED)%N then s4
  else if (b <? 0xF0)%N then s3
  else if (b =? 0xF0)%N then s5
  else if (b <? 0xF4)%N then s6
  else if (b =? 0xF4)%N then s7
  else xx.

(** [acceptRanges[i]]: the lowest and highest second byte accepted. *)
Definition acceptRanges (i : N) : N * N :=
  match i with
  | 0%N => (locb, hicb)
  | 1%N => (0xA0%N, hicb)
  | 2%N => (locb, 0x9F%N)
  | 3%N => (0x90%N, hicb)
  | 4%N => (locb, 0x8F%N)
  | _ => (0%N, 0%N)
  end.

Definition DecodeRuneInString (s : string) : N * nat :=
  let n := len s in
  if n <? 1 then (RuneError, 0)
  else
    let s0 := byteAt s 0 in
    let x := first s0 in
    if (as_ <=? x)%N then
      (* the mask is all ones for xx and zero for as *)
      ((if N.testbit x 0 then RuneError else s0), 1)
    else
      let sz := N.to_nat (N.land x 7) in
      let accept := acceptRanges (N.shiftr x 4) in
      if n <? sz then (RuneError, 1)
      else
        let s1 := byteAt s 1 in
        if ((s1 <? fst accept) || (snd accept <? s1))%N then (RuneError, 1)
        else if sz <=? 2 then
          (N.lor (N.shiftl (N.land s0 mask2) 6) (N.land s1 maskx), 2)
        else
          let s2 := byteAt s 2 in
          if ((s2 <? locb) || (hicb <? s2))%N then (RuneError, 1)
          else if sz <=? 3 then
            (N.lor (N.lor (N.shiftl (N.land s0 mask3) 12)
                          (N.shiftl (N.land s1 maskx) 6))
                   (N.land s2 maskx), 3)
          else
            let s3 := byteAt s 3 in
            if ((s3 <? locb) || (hicb <? s3))%N then (RuneError, 1)
            else
              (N.lor (N.lor (N.lor (N.shiftl (N.land s0 mask4) 18)
                                   (N.shiftl (N.land s1 maskx) 12))
                            (N.shiftl (N.land s2 maskx) 6))
                     (N.land s3 maskx), 4).

(** [RuneStart(b)]: [b] is not a continuation byte. *)
Definition RuneStart (b : N) : bool :=
  negb (N.land b 0xC0 =? 0x80)%N.

(** The loop [for start--; start >= lim; start-- { if RuneStart(s[start])
    { break } }] of [DecodeLastRuneInString]; [k] counts the positions
    left down to [lim], and the result is [None] when [start] has gone
    below 0. *)
Fixpoint findStart (s : string) (start : option nat) (k : nat) : option nat :=
  match k with
  | O => start
  | S k' =>
      match start with
      | None => None
      | Some i =>
          if RuneStart (byteAt s i) then Some i
          else findStart s (match i with O => None | S j => Some j end) k'
      end
  end.

Definition DecodeLastRuneInString (s : string) : N * nat :=
  let end_ := len s in
  if end_ =? 0 then (RuneError, 0)
  else
    let start := end_ - 1 in
    let r := byteAt s start in
    if (r <? RuneSelf)%N then (r, 1)
    else
      let lim := end_ - UTFMax in
      (* start-- ; then the loop runs while start >= lim *)
      let start :=
        match start with
        | O => O
        | S j =>
            match findStart s (Some j) (S j - lim) with
            | Some i => i
            | None => O
            end
        end in
      let '(r, size) := DecodeRuneInString (slice s start end_) in
      if start + size =? end_ then (r, size) else (RuneError, 1).

End utf8.

(** ** Package unicode *)

Module unicode.

Definition MaxLatin1 : N := 0xFF%N.

(** The ranges of the table [White_Space] above Latin-1. *)
Definition isExcludingLatin_White_Space (r : N) : bool :=
  ((r =? 0x1680) || ((0x2000 <=? r) && (r <=? 0x200A))
   || (r =? 0x2028) || (r =? 0x2029) || (r =? 0x202F) || (r =? 0x205F)
   || (r =? 0x3000))%N.

Definition IsSpace (r : N) : bool :=
  if (r <=? MaxLatin1)%N then
    ((r =? 0x09) || (r =? 0x0A) || (r =? 0x0B) || (r =? 0x0C) || (r =? 0x0D)
     || (r =? 0x20) || (r =? 0x85) || (r =? 0xA0))%N
  else isExcludingLatin_White_Space r.

End unicode.

(** ** Package strings *)

Module strings.

(** [HasPrefix(s, prefix)]: [len(s) >= len(prefix) && s[:len(prefix)] ==
    prefix]. *)
Definition HasPrefix (s prefix : string) : bool :=
  (len prefix <=? len s) && String.eqb (sliceTo s (len prefix)) prefix.

(** [asciiSpace[c] == 1] *)
Definition asciiSpace (c : N) : bool :=
  ((c =? 0x09) || (c =? 0x0A) || (c =? 0x0B) || (c =? 0x0C) || (c =? 0x0D)
   || (c =? 0x20))%N.

(** [for i, r := range s { if f(r) == truth { return i } }; return -1];
    a [range] over a string decodes one rune per iteration, as
    [DecodeRuneInString] does.  Every iteration consumes a byte at least, so
    [len(s)] iterations exhaust the string. *)
Fixpoint indexFunc_loop (fuel : nat) (s : string) (i : nat)
         (f : N -> bool) (truth : bool) : Z :=
  match fuel with
  | O => (-1)%Z
  | S fuel' =>
      if i <? len s then
        let '(r, size) := utf8.DecodeRuneInString (sliceFrom s i) in
        if Bool.eqb (f r) truth then Z.of_nat i
        else indexFunc_loop fuel' s (i + size) f truth
      else (-1)%Z
  end.

Definition indexFunc (s : string) (f : N -> bool) (truth : bool) : Z :=
  indexFunc_loop (len s) s 0 f truth.

(** [for i := len(s); i > 0; { r, size := DecodeLastRuneInString(s[0:i]);
    i -= size; if f(r) == truth { return i } }; return -1] *)
Fixpoint lastIndexFunc_loop (fuel : nat) (s : string) (i : nat)
         (f : N -> bool) (truth : bool) : Z :=
  match fuel with
  | O => (-1)%Z
  | S fuel' =>
      if 0 <? i then
        let '(r, size) := utf8.DecodeLastRuneInString (sliceTo s i) in
        let i := i - size in
        if Bool.eqb (f r) truth then Z.of_nat i
        else lastIndexFunc_loop fuel' s i f truth
      else (-1)%Z
  end.

Definition lastIndexFunc (s : string) (f : N -> bool) (truth : bool) : Z :=
  lastIndexFunc_loop (len s) s (len s) f truth.

Definition TrimLeftFunc (s : string) (f : N -> bool) : string :=
  let i := indexFunc s f false in
  if (i =? -1)%Z then "" else sliceFrom s (Z.to_nat i).

Definition TrimRightFunc (s : string) (f : N -> bool) : string :=
  let i := lastIndexFunc s f false in
  let i :=
    if ((0 <=? i)%Z && (utf8.RuneSelf <=? byteAt s (Z.to_nat i))%N)%bool then
      let '(_, wid) := utf8.DecodeRuneInString (sliceFrom s (Z.to_nat i)) in
      (i + Z.of_nat wid)%Z
    else (i + 1)%Z in
  sliceTo s (Z.to_nat i).

Definition TrimFunc (s : string) (f : N -> bool) : string :=
  TrimRightFunc (TrimLeftFunc s f) f.

(** The second loop of [TrimSpace], on [t = s[start:]]: [stop] counts from
    [start]. *)
Fixpoint TrimSpace_right (t : string) (stop : nat) : string :=
  match stop with
  | O => ""
  | S k =>
      let c := byteAt t k in
      if (utf8.RuneSelf <=? c)%N then
        TrimRightFunc (sliceTo t stop) unicode.IsSpace
      else if asciiSpace c then TrimSpace_right t k
      else sliceTo t stop
  end.

(** [TrimSpace(s)].  The first loop runs over the leading bytes of [s], the
    recursion below is on the rest [s[start:]]. *)
Fixpoint TrimSpace (s : string) : string :=
  match s with
  | EmptyString => TrimSpace_right s (len s)
  | String c0 s' =>
      let c := N_of_ascii c0 in
      if (utf8.RuneSelf <=? c)%N then TrimFunc s unicode.IsSpace
      else if asciiSpace c then TrimSpace s'
      else TrimSpace_right s (len s)
  end.

End strings.

(** ** Package autoscan (the part the target uses) *)

Module autoscan.

(** Modelled from the spec: the scan request [autoscan.Scan], declared in the
    root package.  It is the event of the data model, whose one field is the
    folder; the target reads nothing else of it. *)
Record Scan : Type := { Folder : string }.

(** Modelled from the spec: [autoscan.Rewriter], declared in the root
    package, a pure function from strings to strings that is total. *)
Definition Rewriter : Type := string -> string.

End autoscan.

(** ** The data of the package *)

(** A Go [error]: its message.  [nil] is [None] of [option error]. *)
Inductive error : Type := Error (msg : string).

(** [fmt.Errorf("%v: failed determining library", folder)] *)
Definition Errorf_failed_determining_library (folder : string) : error :=
  Error (folder ++ ": failed determining library").

(** Modelled from the spec: the type [library], declared with the API client:
    a library of the remote system, its name and its root path.  The target
    reads both fields, as [lib.Name] and [l.Path]. *)
Record library : Type := { Name : string; Path : string }.

(** The levels of zerolog the target logs at. *)
Inductive level : Type := TraceLevel | DebugLevel | InfoLevel | WarnLevel | ErrorLevel.

(** A field of a log record. *)
Inductive field : Type :=
| Str (key val : string)
| Err (e : error)
| Interface (key : string) (val : list library).

(** A [zerolog.Logger]: the fields of its context. *)
Definition Logger : Type := list field.

(** What a method does to the outside, in the order it does it: the calls of
    the API client with their arguments and results, and the log records. *)
Inductive event : Type :=
| CallLibraries (libs : list library) (err : option error)
| CallAvailable (err : option error)
| CallGetViewID (userID libraryName viewID : string) (err : option error)
| CallFindItemIDByPath (userID viewID path itemID : string) (err : option error)
| CallRefreshItem (itemID : string) (err : option error)
| CallScan (path : string) (err : option error)
| Log (lvl : level) (fields : list field) (msg : string).

Section Jellyfin.

(** The state of the remote system as the API client reaches it. *)
Variable World : Type.

(** [autoscan.Rewrite], a rewrite rule of the configuration. *)
Variable Rewrite : Type.

(** [Rewrite_] is the field [Rewrite]. *)
Record Config : Type := {
  URL : string;
  Token : string;
  UserID : string;
  Library : string;
  PreciseRefresh : bool;
  Rewrite_ : list Rewrite;
  Verbosity : string
}.

(** Modelled from the spec: the type [apiClient], declared in another file
    of the package, with the six operations the target consumes, each of
    which may fail on its own.  An operation is given by what it answers in a
    state of the remote system and by the state it leaves; a Go function of
    results [(v, err)] answers a pair. *)
Record apiClient : Type := {
  doLibraries : World -> (list library * option error) * World;
  doAvailable : World -> option error * World;
  doGetViewID : string -> string -> World -> (string * option error) * World;
  doFindItemIDByPath :
    string -> string -> string -> World -> (string * option error) * World;
  doRefreshItem : string -> World -> option error * World;
  doScan : string -> World -> option error * World
}.

Record target : Type := {
  cfg : Config;
  libraries : list library;
  log : Logger;
  rewrite : autoscan.Rewriter;
  api : apiClient
}.

(** *** Computations *)

Definition M (A : Type) : Type := World -> A * World * list event.

Definition ret {A : Type} (a : A) : M A := fun w => (a, w, []).

Definition bind {A B : Type} (m : M A) (k : A -> M B) : M B :=
  fun w =>
    let '(a, w1, t1) := m w in
    let '(b, w2, t2) := k a w1 in
    (b, w2, t1 ++ t2).

Notation "x <- m ;; k" := (bind m (fun x => k))
  (at level 61, m at next level, right associativity).
Notation "m ;;; k" := (bind m (fun _ => k))
  (at level 61, right associativity).

Definition result {A : Type} (r : A * World * list event) : A := fst (fst r).
Definition after {A : Type} (r : A * World * list event) : World := snd (fst r).
Definition events {A : Type} (r : A * World * list event) : list event := snd r.

(** A record logged through logger [l]. *)
Definition logMsg (l : Logger) (lvl : level) (fs : list field) (msg : string)
  : M unit :=
  fun w => (tt, w, [Log lvl (l ++ fs) msg]).

(** The methods of the API client, as computations. *)
Definition api_Libraries (a : apiClient) : M (list library * option error) :=
  fun w => let '(r, w') := doLibraries a w in
           (r, w', [CallLibraries (fst r) (snd r)]).

Definition api_Available (a : apiClient) : M (option error) :=
  fun w => let '(r, w') := doAvailable a w in (r, w', [CallAvailable r]).

Definition api_GetViewID (a : apiClient) (userID libraryName : string)
  : M (string * option error) :=
  fun w => let '(r, w') := doGetViewID a userID libraryName w in
           (r, w', [CallGetViewID userID libraryName (fst r) (snd r)]).

Definition api_FindItemIDByPath (a : apiClient) (userID viewID path : string)
  : M (string * option error) :=
  fun w => let '(r, w') := doFindItemIDByPath a userID viewID path w in
           (r, w', [CallFindItemIDByPath userID viewID path (fst r) (snd r)]).

Definition api_RefreshItem (a : apiClient) (itemID : string) : M (option error) :=
  fun w => let '(r, w') := doRefreshItem a itemID w in
           (r, w', [CallRefreshItem itemID r]).

Definition api_Scan (a : apiClient) (path : string) : M (option error) :=
  fun w => let '(r, w') := doScan a path w in (r, w', [CallScan path r]).

(** *** The target *)

(** [getScanLibrary]: the loop over [t.libraries].  The method returns
    [(&l, nil)] or [(nil, err)]: a library or an error. *)
Fixpoint getScanLibrary_loop (ls : list library) (folder : string)
  : library + error :=
  match ls with
  | [] => inr (Errorf_failed_determining_library folder)
  | l :: rest =>
      if strings.HasPrefix folder (Path l) then inl l
      else getScanLibrary_loop rest folder
  end.

Definition getScanLibrary (t : target) (folder : string) : library + error :=
  getScanLibrary_loop (libraries t) folder.

Definition Available (t : target) : M (option error) :=
  api_Available (api t).

(** The library name [Scan] asks the view of. *)
Definition effectiveLibraryName (t : target) (lib : library) : string :=
  let libraryName := Library (cfg t) in
  if String.eqb (strings.TrimSpace libraryName) "" then Name lib
  else libraryName.

(** The block of [Scan] under [if t.cfg.PreciseRefresh]: [true] when it
    returns [nil] from the method, [false] when control reaches the end of
    the block. *)
Definition Scan_precise (t : target) (l : Logger) (lib : library)
           (scanFolder : string) : M bool :=
  logMsg l TraceLevel [] "Trying precise Jellyfin refresh by itemId" ;;;
  let libraryName := effectiveLibraryName t lib in
  r <- api_GetViewID (api t) (UserID (cfg t)) libraryName ;;
  let '(viewID, vErr) := r in
  match vErr with
  | Some e =>
      logMsg l WarnLevel [Err e; Str "library" libraryName]
        "Cannot resolve Jellyfin viewId; falling back to library scan" ;;;
      ret false
  | None =>
      r <- api_FindItemIDByPath (api t) (UserID (cfg t)) viewID scanFolder ;;
      let '(itemID, fErr) := r in
      match fErr with
      | Some e =>
          logMsg l WarnLevel [Err e; Str "path" scanFolder]
            "Cannot match Jellyfin item by exact Path; falling back to library scan" ;;;
          ret false
      | None =>
          if negb (String.eqb (strings.TrimSpace itemID) "") then
            rErr <- api_RefreshItem (api t) itemID ;;
            match rErr with
            | Some e =>
                logMsg l ErrorLevel [Err e; Str "itemId" itemID]
                  "Jellyfin item refresh failed; falling back to library scan" ;;;
                ret false
            | None =>
                logMsg l InfoLevel [Str "itemId" itemID]
                  "Refreshed Jellyfin item recursively (precise refresh)" ;;;
                ret true
            end
          else ret false
      end
  end.

(** The end of [Scan]: the scan of the whole library. *)
Definition Scan_full (t : target) (l : Logger) (scanFolder : string)
  : M (option error) :=
  logMsg l TraceLevel []
    "Sending library scan request (fallback or precise_refresh disabled)" ;;;
  err <- api_Scan (api t) scanFolder ;;
  match err with
  | Some e => ret (Some e)
  | None => logMsg l InfoLevel [] "Scan moved to target" ;;; ret None
  end.

Definition Scan (t : target) (scan : autoscan.Scan) : M (option error) :=
  let scanFolder := rewrite t (autoscan.Folder scan) in
  match getScanLibrary t scanFolder with
  | inr err =>
      logMsg (log t) WarnLevel [Err err] "No target libraries found" ;;;
      ret None
  | inl lib =>
      let l := log t ++ [Str "path" scanFolder; Str "library" (Name lib)] in
      if PreciseRefresh (cfg t) then
        done <- Scan_precise t l lib scanFolder ;;
        if done then ret None else Scan_full t l scanFolder
      else Scan_full t l scanFolder
  end.

(** *** Construction *)

(** [autoscan.GetLogger], [autoscan.NewRewriter] and [newAPIClient]. *)
Variable GetLogger : string -> Logger.
Variable NewRewriter : list Rewrite -> autoscan.Rewriter * option error.
Variable newAPIClient : string -> string -> Logger -> apiClient.

Definition New (c : Config) : M (target + error) :=
  let l := GetLogger (Verbosity c) ++ [Str "target" "jellyfin"; Str "url" (URL c)] in
  let '(rewriter, err) := NewRewriter (Rewrite_ c) in
  match err with
  | Some e => ret (inr e)
  | None =>
      let api := newAPIClient (URL c) (Token c) l in
      r <- api_Libraries api ;;
      let '(libraries, err) := r in
      match err with
      | Some e => ret (inr e)
      | None =>
          logMsg l DebugLevel [Interface "libraries" libraries]
            "Retrieved libraries" ;;;
          ret (inl {| cfg := c; libraries := libraries; log := l;
                      rewrite := rewriter; api := api |})
      end
  end.

(** *** The instance as its methods reach it

    [New] returns a pointer to the target it built, and the dispatcher calls
    the methods through it.  Here the fields of the instance are part of the
    state that a method threads, with the state of the remote system: a
    method is a computation [Method] that reads a field of its receiver with
    [readField] and reaches the remote system and the log with [outside].
    An assignment to a field of the receiver, or a write through the slice
    of libraries that the receiver shares with the instance, would be a
    computation that changes [self]; nothing in the type [Method] rules one
    out. *)
Record store : Type := {
  self : target;
  remote : World
}.

Definition Method (A : Type) : Type := store -> A * store * list event.

Definition retS {A : Type} (a : A) : Method A := fun s => (a, s, []).

Definition bindS {A B : Type} (m : Method A) (k : A -> Method B) : Method B :=
  fun s =>
    let '(a, s1, t1) := m s in
    let '(b, s2, t2) := k a s1 in
    (b, s2, t1 ++ t2).

Notation "x <~ m ;; k" := (bindS m (fun x => k))
  (at level 61, m at next level, right associativity).
Notation "m ;;~ k" := (bindS m (fun _ => k))
  (at level 61, right associativity).

(** [t.f], for a field [f] of the receiver. *)
Definition readField {A : Type} (f : target -> A) : Method A :=
  fun s => (f (self s), s, []).

(** A call of the API client or a log record: what it changes is the state
    of the remote system. *)
Definition outside {A : Type} (m : M A) : Method A :=
  fun s =>
    let '(a, w, evs) := m (remote s) in
    (a, {| self := self s; remote := w |}, evs).

(** [getScanLibrary], on the receiver. *)
Definition target_getScanLibrary (folder : string) : Method (library + error) :=
  ls <~ readField libraries ;;
  retS (getScanLibrary_loop ls folder).

(** The block of [Scan] under [if t.cfg.PreciseRefresh], on the receiver. *)
Definition target_Scan_precise (l : Logger) (lib : library)
           (scanFolder : string) : Method bool :=
  outside (logMsg l TraceLevel [] "Trying precise Jellyfin refresh by itemId") ;;~
  c <~ readField cfg ;;
  let libraryName :=
    if String.eqb (strings.TrimSpace (Library c)) "" then Name lib
    else Library c in
  a <~ readField api ;;
  c <~ readField cfg ;;
  r <~ outside (api_GetViewID a (UserID c) libraryName) ;;
  let '(viewID, vErr) := r in
  match vErr with
  | Some e =>
      outside (logMsg l WarnLevel [Err e; Str "library" libraryName]
                 "Cannot resolve Jellyfin viewId; falling back to library scan") ;;~
      retS false
  | None =>
      a <~ readField api ;;
      c <~ readField cfg ;;
      r <~ outside (api_FindItemIDByPath a (UserID c) viewID scanFolder) ;;
      let '(itemID, fErr) := r in
      match fErr with
      | Some e =>
          outside (logMsg l WarnLevel [Err e; Str "path" scanFolder]
                     "Cannot match Jellyfin item by exact Path; falling back to library scan") ;;~
          retS false
      | None =>
          if negb (String.eqb (strings.TrimSpace itemID) "") then
            a <~ readField api ;;
            rErr <~ outside (api_RefreshItem a itemID) ;;
            match rErr with
            | Some e =>
                outside (logMsg l ErrorLevel [Err e; Str "itemId" itemID]
                           "Jellyfin item refresh failed; falling back to library scan") ;;~
                retS false
            | None =>
                outside (logMsg l InfoLevel [Str "itemId" itemID]
                           "Refreshed Jellyfin item recursively (precise refresh)") ;;~
                retS true
            end
          else retS false
      end
  end.

(** The end of [Scan], on the receiver. *)
Definition target_Scan_full (l : Logger) (scanFolder : string)
  : Method (option error) :=
  outside (logMsg l TraceLevel []
             "Sending library scan request (fallback or precise_refresh disabled)") ;;~
  a <~ readField api ;;
  err <~ outside (api_Scan a scanFolder) ;;
  match err with
  | Some e => retS (Some e)
  | None => outside (logMsg l InfoLevel [] "Scan moved to target") ;;~ retS None
  end.

(** [Scan], on the receiver: every [t.f] of the method is a [readField]. *)
Definition target_Scan (scan : autoscan.Scan) : Method (option error) :=
  rw <~ readField rewrite ;;
  let scanFolder := rw (autoscan.Folder scan) in
  r <~ target_getScanLibrary scanFolder ;;
  match r with
  | inr err =>
      lg <~ readField log ;;
      outside (logMsg lg WarnLevel [Err err] "No target libraries found") ;;~
      retS None
  | inl lib =>
      lg <~ readField log ;;
      let l := lg ++ [Str "path" scanFolder; Str "library" (Name lib)] in
      c <~ readField cfg ;;
      if PreciseRefresh c then
        done <~ target_Scan_precise l lib scanFolder ;;
        if done then retS None else target_Scan_full l scanFolder
      else target_Scan_full l scanFolder
  end.

(** The events of a list, one call of [Scan] after the other on the same
    instance. *)
Fixpoint serve (scans : list autoscan.Scan) : Method (list (option error)) :=
  match scans with
  | [] => retS []
  | scan :: rest =>
      err <~ target_Scan scan ;;
      errs <~ serve rest ;;
      retS (err :: errs)
  end.

(** What an assignment [t.libraries = ls] in a method would be.  The target
    has none: this is here to tell a method that assigns from one that does
    not. *)
Definition assignLibraries (ls : list library) : Method unit :=
  fun s =>
    (tt,
     {| self := {| cfg := cfg (self s); libraries := ls; log := log (self s);
                   rewrite := rewrite (self s); api := api (self s) |};
        remote := remote s |},
     []).

End Jellyfin.

Arguments cfg {World Rewrite} t.
Arguments libraries {World Rewrite} t.
Arguments log {World Rewrite} t.
Arguments rewrite {World Rewrite} t _.
Arguments api {World Rewrite} t.
Arguments URL {Rewrite} c.
Arguments Token {Rewrite} c.
Arguments UserID {Rewrite} c.
Arguments Library {Rewrite} c.
Arguments PreciseRefresh {Rewrite} c.
Arguments Rewrite_ {Rewrite} c.
Arguments Verbosity {Rewrite} c.
Arguments doLibraries {World} a _.
Arguments doAvailable {World} a _.
Arguments doGetViewID {World} a _ _ _.
Arguments doFindItemIDByPath {World} a _ _ _ _.
Arguments doRefreshItem {World} a _ _.
Arguments doScan {World} a _ _.
Arguments result {World A} r.
Arguments after {World A} r.
Arguments events {World A} r.
Arguments getScanLibrary {World Rewrite} t folder.
Arguments effectiveLibraryName {World Rewrite} t lib.
Arguments Available {World Rewrite} t _.
Arguments Scan_precise {World Rewrite} t l lib scanFolder _.
Arguments Scan_full {World Rewrite} t l scanFolder _.
Arguments Scan {World Rewrite} t scan _.
Arguments New {World Rewrite} GetLogger NewRewriter newAPIClient c _.
Arguments self {World Rewrite} s.
Arguments remote {World Rewrite} s.
Arguments target_getScanLibrary {World Rewrite} folder _.
Arguments target_Scan_precise {World Rewrite} l lib scanFolder _.
Arguments target_Scan_full {World Rewrite} l scanFolder _.
Arguments target_Scan {World Rewrite} scan _.
Arguments serve {World Rewrite} scans _.
Arguments assignLibraries {World Rewrite} ls _.

(** ** Reading a list of events *)

Definition isCall (e : event) : bool :=
  match e with
  | Log _ _ _ => false
  | _ => true
  end.

(** The calls of the API client among the events, in order. *)
Definition apiCalls (evs : list event) : list event := filter isCall evs.

Definition isCallScan (e : event) : bool :=
  match e with CallScan _ _ => true | _ => false end.

Definition isCallRefreshItem (e : event) : bool :=
  match e with CallRefreshItem _ _ => true | _ => false end.

Definition isCallLibraries (e : event) : bool :=
  match e with CallLibraries _ _ => true | _ => false end.

Definition isCallGetViewID (e : event) : bool :=
  match e with CallGetViewID _ _ _ _ => true | _ => false end.

(** How many events of a kind. *)
Definition count (p : event -> bool) (evs : list event) : nat :=
  List.length (filter p evs).

(** ** A remote system to run the target against

    Its state counts the requests it has served.  It has the two libraries
    below, a view for every library name and an item for every path, and
    fails where the flags of its setup say so. *)

Definition sampleLibraries : list library :=
  [{| Name := "Movies"; Path := "/data/movies" |};
   {| Name := "TV"; Path := "/data/tv" |}].

(** Which requests fail, and the item found at a path. *)
Record remoteSetup : Type := {
  viewFails : bool;
  findFails : bool;
  itemOf : string -> string;
  refreshFails : bool;
  scanFails : bool
}.

Definition sampleClient (r : remoteSetup) : apiClient nat := {|
  doLibraries := fun n => ((sampleLibraries, None), S n);
  doAvailable := fun n => (None, S n);
  doGetViewID := fun _ libraryName n =>
    (if viewFails r then ("", Some (Error "view not found"))
     else (("view-" ++ libraryName)%string, None), S n);
  doFindItemIDByPath := fun _ _ path n =>
    (if findFails r then ("", Some (Error "no item")) else (itemOf r path, None),
     S n);
  doRefreshItem := fun _ n =>
    (if refreshFails r then Some (Error "refresh refused") else None, S n);
  doScan := fun _ n =>
    (if scanFails r then Some (Error "scan refused") else None, S n)
|}.

Definition sampleConfig (library : string) (precise : bool) : Config unit := {|
  URL := "http://jellyfin:8096";
  Token := "secret";
  UserID := "u1";
  Library := library;
  PreciseRefresh := precise;
  Rewrite_ := [];
  Verbosity := "info"
|}.

Definition sampleTarget (library : string) (precise : bool) (r : remoteSetup)
  : target nat unit := {|
  cfg := sampleConfig library precise;
  libraries := sampleLibraries;
  log := [Str "target" "jellyfin"; Str "url" "http://jellyfin:8096"];
  rewrite := fun s => s;
  api := sampleClient r
|}.

Definition allFine (item : string) : remoteSetup := {|
  viewFails := false; findFails := false; itemOf := fun _ => item;
  refreshFails := false; scanFails := false
|}.

Definition inception : autoscan.Scan :=
  {| autoscan.Folder := "/data/movies/Inception" |}.

(** Two libraries, one inside the other, the outer one first. *)
Definition nestedLibraries : list library :=
  [{| Name := "Media"; Path := "/data" |};
   {| Name := "Movies"; Path := "/data/movies" |}].

Definition nestedTarget : target nat unit := {|
  cfg := sampleConfig "" false;
  libraries := nestedLibraries;
  log := [];
  rewrite := fun s => s;
  api := sampleClient (allFine "42")
|}.

(** What [New] is given in the runs below. *)
Definition sampleGetLogger (verbosity : string) : Logger :=
  [Str "level" verbosity].

Definition sampleNewRewriter (rules : list unit)
  : autoscan.Rewriter * option error :=
  (fun s => s, None).

Definition sampleNewAPIClient (url token : string) (l : Logger) : apiClient nat :=
  sampleClient (allFine "42").

Definition refreshRefused : remoteSetup := {|
  viewFails := false; findFails := false; itemOf := fun _ => "42";
  refreshFails := true; scanFails := false
|}.

Definition musicX : autoscan.Scan := {| autoscan.Folder := "/data/music/x" |}.

(** More kinds of events. *)
Definition isCallFindItemIDByPath (e : event) : bool :=
  match e with CallFindItemIDByPath _ _ _ _ _ => true | _ => false end.

Definition isCallAvailable (e : event) : bool :=
  match e with CallAvailable _ => true | _ => false end.

(** More setups of the sample remote system. *)
Definition viewRefused : remoteSetup := {|
  viewFails := true; findFails := false; itemOf := fun _ => "42";
  refreshFails := false; scanFails := true
|}.

Definition findRefused : remoteSetup := {|
  viewFails := false; findFails := true; itemOf := fun _ => "42";
  refreshFails := false; scanFails := false
|}.

(** A first library of empty root, before the sample libraries. *)
Definition catchAllTarget : target nat unit := {|
  cfg := sampleConfig "" false;
  libraries := {| Name := "All"; Path := "" |} :: sampleLibraries;
  log := [];
  rewrite := fun s => s;
  api := sampleClient (allFine "42")
|}.

(** The sample target with one library more, after the others. *)
Definition grownTarget : target nat unit := {|
  cfg := sampleConfig "" false;
  libraries := sampleLibraries ++ [{| Name := "Music"; Path := "/data/music" |}];
  log := [Str "target" "jellyfin"; Str "url" "http://jellyfin:8096"];
  rewrite := fun s => s;
  api := sampleClient (allFine "42")
|}.

(** A remote system without libraries, and one that refuses to list them. *)
Definition sampleNewEmptyAPIClient (url token : string) (l : Logger)
  : apiClient nat := {|
  doLibraries := fun n => (([], None), S n);
  doAvailable := doAvailable (sampleClient (allFine "42"));
  doGetViewID := doGetViewID (sampleClient (allFine "42"));
  doFindItemIDByPath := doFindItemIDByPath (sampleClient (allFine "42"));
  doRefreshItem := doRefreshItem (sampleClient (allFine "42"));
  doScan := doScan (sampleClient (allFine "42"))
|}.

(** A rewriter that puts the folders under [/data/movies], and a folder as
    the watcher sees it. *)
Definition sampleMountRewriter (rules : list unit)
  : autoscan.Rewriter * option error :=
  (fun s => ("/data/movies" ++ s)%string, None).

Definition rawInception : autoscan.Scan := {| autoscan.Folder := "/Inception" |}.

(** A rewriter constructor that refuses the rules. *)
Definition sampleRefusingRewriter (rules : list unit)
  : autoscan.Rewriter * option error :=
  (fun s => s, Some (Error "bad rule")).

(** ** Decoding, for the proofs *)

(** [DecodeRuneInString] as a function of the length of the string and of its
    first four bytes, for the proofs. *)
Definition decode (n : nat) (b0 b1 b2 b3 : N) : N * nat :=
  if n <? 1 then (utf8.RuneError, 0)
  else
    let x := utf8.first b0 in
    if (utf8.as_ <=? x)%N then
      ((if N.testbit x 0 then utf8.RuneError else b0), 1)
    else
      let sz := N.to_nat (N.land x 7) in
      let accept := utf8.acceptRanges (N.shiftr x 4) in
      if n <? sz then (utf8.RuneError, 1)
      else
        if ((b1 <? fst accept) || (snd accept <? b1))%N then (utf8.RuneError, 1)
        else if sz <=? 2 then
          (N.lor (N.shiftl (N.land b0 utf8.mask2) 6) (N.land b1 utf8.maskx), 2)
        else
          if ((b2 <? utf8.locb) || (utf8.hicb <? b2))%N then (utf8.RuneError, 1)
          else if sz <=? 3 then
            (N.lor (N.lor (N.shiftl (N.land b0 utf8.mask3) 12)
                          (N.shiftl (N.land b1 utf8.maskx) 6))
                   (N.land b2 utf8.maskx), 3)
          else
            if ((b3 <? utf8.locb) || (utf8.hicb <? b3))%N then (utf8.RuneError, 1)
            else
              (N.lor (N.lor (N.lor (N.shiftl (N.land b0 utf8.mask4) 18)
                                   (N.shiftl (N.land b1 utf8.maskx) 12))
                            (N.shiftl (N.land b2 utf8.maskx) 6))
                     (N.land b3 utf8.maskx), 4).

(** The classes of a first byte. *)
Inductive firstClass : N -> Prop :=
| fc_as : firstClass utf8.as_
| fc_xx : firstClass utf8.xx
| fc_s1 : firstClass utf8.s1
| fc_s2 : firstClass utf8.s2
| fc_s3 : firstClass utf8.s3
| fc_s4 : firstClass utf8.s4
| fc_s5 : firstClass utf8.s5
| fc_s6 : firstClass utf8.s6
| fc_s7 : firstClass utf8.s7.

(** The runes of a string, as a [range] loop over it decodes them. *)
Fixpoint runes_loop (fuel : nat) (s : string) : list N :=
  match fuel with
  | O => []
  | S fuel' =>
      if 0 <? len s then
        let '(r, size) := utf8.DecodeRuneInString s in
        r :: runes_loop fuel' (sliceFrom s size)
      else []
  end.

(** [runes_loop] with the fuel that exhausts the string. *)
Definition runes (s : string) : list N := runes_loop (len s) s.

(** The string is empty or all white space, as Unicode defines it. *)
Definition onlySpace (s : string) : bool := forallb unicode.IsSpace (runes s).

(** ** What is to be shown, in the words of the design *)

(** [root] is a string-prefix of [p]. *)
Definition isPrefixOf (root p : string) : Prop :=
  exists rest : string, p = (root ++ rest)%string.

(** [l] is the first library of [ls], in the order of [ls], whose root is a
    prefix of [p]. *)
Definition firstMatch (ls : list library) (p : string) (l : library) : Prop :=
  exists before later : list library,
    ls = before ++ l :: later /\
    isPrefixOf (Path l) p /\
    Forall (fun l' => ~ isPrefixOf (Path l') p) before.

(** No library of [ls] has a root that is a prefix of [p]. *)
Definition noMatch (ls : list library) (p : string) : Prop :=
  Forall (fun l => ~ isPrefixOf (Path l) p) ls.

(** The calls of the API client that [Scan] may make for a rewritten folder,
    with the error it returns: one case per way through the method. *)
Inductive Scan_path {World Rewrite : Type} (t : target World Rewrite)
          (folder : string) : option error -> list event -> Prop :=
| path_no_library (e : error) :
    getScanLibrary t folder = inr e ->
    Scan_path t folder None []
| path_classic (lib : library) (r : option error) :
    getScanLibrary t folder = inl lib ->
    PreciseRefresh (cfg t) = false ->
    Scan_path t folder r [CallScan folder r]
| path_view_failed (lib : library) (v : string) (e : error) (r : option error) :
    getScanLibrary t folder = inl lib ->
    PreciseRefresh (cfg t) = true ->
    Scan_path t folder r
      [CallGetViewID (UserID (cfg t)) (effectiveLibraryName t lib) v (Some e);
       CallScan folder r]
| path_find_failed (lib : library) (v i : string) (e : error) (r : option error) :
    getScanLibrary t folder = inl lib ->
    PreciseRefresh (cfg t) = true ->
    Scan_path t folder r
      [CallGetViewID (UserID (cfg t)) (effectiveLibraryName t lib) v None;
       CallFindItemIDByPath (UserID (cfg t)) v folder i (Some e);
       CallScan folder r]
| path_blank_item (lib : library) (v i : string) (r : option error) :
    getScanLibrary t folder = inl lib ->
    PreciseRefresh (cfg t) = true ->
    strings.TrimSpace i = "" ->
    Scan_path t folder r
      [CallGetViewID (UserID (cfg t)) (effectiveLibraryName t lib) v None;
       CallFindItemIDByPath (UserID (cfg t)) v folder i None;
       CallScan folder r]
| path_refresh_failed (lib : library) (v i : string) (e : error) (r : option error) :
    getScanLibrary t folder = inl lib ->
    PreciseRefresh (cfg t) = true ->
    strings.TrimSpace i <> "" ->
    Scan_path t folder r
      [CallGetViewID (UserID (cfg t)) (effectiveLibraryName t lib) v None;
       CallFindItemIDByPath (UserID (cfg t)) v folder i None;
       CallRefreshItem i (Some e);
       CallScan folder r]
| path_refreshed (lib : library) (v i : string) :
    getScanLibrary t folder = inl lib ->
    PreciseRefresh (cfg t) = true ->
    strings.TrimSpace i <> "" ->
    Scan_path t folder None
      [CallGetViewID (UserID (cfg t)) (effectiveLibraryName t lib) v None;
       CallFindItemIDByPath (UserID (cfg t)) v folder i None;
       CallRefreshItem i None].

(** * Properties *)

(** ** Decoding *)

Lemma Decode_decode s :
  utf8.DecodeRuneInString s =
  decode (len s) (byteAt s 0) (byteAt s 1) (byteAt s 2) (byteAt s 3).
Proof. reflexivity. Qed.

Lemma first_class b : firstClass (utf8.first b).
Proof.
  unfold utf8.first.
  repeat match goal with
         | |- context [if ?c then _ else _] => destruct c
         end; constructor.
Qed.

(** Case analysis on the conditions of the goal, innermost first. *)
Ltac bools :=
  repeat match goal with
         | |- context [if ?c then _ else _] => 
             lazymatch c with
             | context [if _ then _ else _] => fail
             | _ => destruct c eqn:?
             end
         end.

(** Case analysis on the class of the first byte, the constants of the class
    computed. *)
Ltac by_class b0 :=
  unfold decode;
  destruct (first_class b0); cbv zeta;
  match goal with
  | |- context [(?a <=? ?b)%N] =>
      let v := eval vm_compute in (a <=? b)%N in change (a <=? b)%N with v
  end; cbv iota;
  repeat match goal with
    | |- context [N.testbit ?a ?b] =>
      let v := eval vm_compute in (N.testbit a b) in change (N.testbit a b) with v
    | |- context [N.to_nat ?a] =>
      let v := eval vm_compute in (N.to_nat a) in change (N.to_nat a) with v
    | |- context [utf8.acceptRanges ?a] =>
      let v := eval vm_compute in (utf8.acceptRanges a) in
      change (utf8.acceptRanges a) with v
    end;
  cbv iota; cbn [fst snd];
  change (2 <=? 2) with true; change (3 <=? 2) with false;
  change (3 <=? 3) with true; change (4 <=? 2) with false;
  change (4 <=? 3) with false; cbv iota.

(** Comparisons of [nat] among the hypotheses, as propositions. *)
Ltac natb :=
  repeat match goal with
         | H : (_ <? _) = true |- _ => apply Nat.ltb_lt in H
         | H : (_ <? _) = false |- _ => apply Nat.ltb_ge in H
         end.

Lemma decode_size n b0 b1 b2 b3 :
  0 < n -> 1 <= snd (decode n b0 b1 b2 b3) <= n.
Proof.
  intros Hn.
  by_class b0; bools; natb; cbn [snd]; lia.
Qed.

Lemma decode_ascii n b0 b1 b2 b3 :
  0 < n -> (b0 <? 0x80)%N = true -> decode n b0 b1 b2 b3 = (b0, 1).
Proof.
  intros Hn Hb. unfold decode, utf8.first. rewrite Hb.
  destruct (n <? 1) eqn:E; [apply Nat.ltb_lt in E; lia|]. reflexivity.
Qed.

(** A decoding that took all of the [i] bytes it was given, and did not end in
    [RuneError], is the same with more bytes behind. *)
Lemma decode_prefix n i b0 b1 b2 b3 c1 c2 c3 r :
  0 < i <= n ->
  (1 < i -> c1 = b1) -> (2 < i -> c2 = b2) -> (3 < i -> c3 = b3) ->
  decode i b0 c1 c2 c3 = (r, i) ->
  r <> utf8.RuneError ->
  decode n b0 b1 b2 b3 = (r, i).
Proof.
  intros Hi H1 H2 H3 H Hr. revert H.
  by_class b0; bools; natb; intros [= <- <-]; try lia; try congruence.
  all: rewrite ?H1, ?H2, ?H3 in * by lia; try congruence.
  all: try match goal with H : ?i = ?k |- _ => is_var i; subst i end.
Qed.

(** ** Slices *)

Lemma len_sliceTo s i : len (sliceTo s i) = Nat.min i (len s).
Proof.
  unfold sliceTo, len. revert s; induction i as [|i IH]; intros [|c s]; simpl; auto.
Qed.

Lemma byteAt_sliceTo s i k : k < i -> byteAt (sliceTo s i) k = byteAt s k.
Proof.
  unfold sliceTo, byteAt. revert s k; induction i as [|i IH]; intros s k Hk; [lia|].
  destruct s as [|c s]; simpl; auto.
  destruct k as [|k]; simpl; auto. apply IH. lia.
Qed.

Lemma substring_all s : substring 0 (String.length s) s = s.
Proof. induction s as [|c s IH]; simpl; [reflexivity | now rewrite IH]. Qed.

Lemma sliceFrom_0 s : sliceFrom s 0 = s.
Proof. unfold sliceFrom, len. rewrite Nat.sub_0_r. apply substring_all. Qed.

Lemma sliceTo_len s : sliceTo s (len s) = s.
Proof. apply substring_all. Qed.

Lemma sliceFrom_S c s i : sliceFrom (String c s) (S i) = sliceFrom s i.
Proof. reflexivity. Qed.

Lemma len_sliceFrom s i : len (sliceFrom s i) = len s - i.
Proof.
  revert i; induction s as [|c s IH]; intros [|i]; try reflexivity.
  - rewrite sliceFrom_0. simpl. lia.
  - rewrite sliceFrom_S. apply IH.
Qed.

Lemma sliceFrom_nil i : sliceFrom "" i = "".
Proof. now destruct i. Qed.

Lemma sliceFrom_sliceFrom s i j :
  sliceFrom (sliceFrom s i) j = sliceFrom s (i + j).
Proof.
  revert i; induction s as [|c s IH]; intros i.
  - now rewrite !sliceFrom_nil.
  - destruct i as [|i]; [now rewrite sliceFrom_0|].
    rewrite sliceFrom_S. simpl. rewrite sliceFrom_S. apply IH.
Qed.

Lemma len_0 s : len s = 0 -> s = "".
Proof. now destruct s. Qed.

Lemma sliceTo_S_nonempty s k : s <> "" -> sliceTo s (S k) <> "".
Proof. destruct s; [congruence | discriminate]. Qed.

Lemma byteAt_0 c s : byteAt (String c s) 0 = N_of_ascii c.
Proof. reflexivity. Qed.

(** ** White space *)

Lemma IsSpace_ascii c :
  (c <? 0x80)%N = true -> unicode.IsSpace c = strings.asciiSpace c.
Proof.
  intros H. apply N.ltb_lt in H. unfold unicode.IsSpace, strings.asciiSpace, unicode.MaxLatin1.
  destruct (N.leb_spec c 0xFF); [|lia].
  destruct (N.eqb_spec c 0x85); [lia|].
  destruct (N.eqb_spec c 0xA0); [lia|].
  now rewrite !orb_false_r.
Qed.

Lemma IsSpace_RuneError : unicode.IsSpace utf8.RuneError = false.
Proof. reflexivity. Qed.

Lemma Decode_size s :
  0 < len s -> 1 <= snd (utf8.DecodeRuneInString s) <= len s.
Proof. intros H. rewrite Decode_decode. now apply decode_size. Qed.

Lemma Decode_ascii c s :
  (N_of_ascii c <? 0x80)%N = true ->
  utf8.DecodeRuneInString (String c s) = (N_of_ascii c, 1).
Proof.
  intros H. rewrite Decode_decode. apply decode_ascii; auto. simpl. lia.
Qed.

Lemma Decode_prefix t i r :
  0 < i <= len t ->
  utf8.DecodeRuneInString (sliceTo t i) = (r, i) ->
  r <> utf8.RuneError ->
  utf8.DecodeRuneInString t = (r, i).
Proof.
  intros Hi H Hr. rewrite Decode_decode in *.
  rewrite len_sliceTo in H. replace (Nat.min i (len t)) with i in H by lia.
  rewrite byteAt_sliceTo in H by lia.
  apply (decode_prefix (len t) i _ _ _ _ (byteAt (sliceTo t i) 1)
           (byteAt (sliceTo t i) 2) (byteAt (sliceTo t i) 3));
    auto; intros; apply byteAt_sliceTo; lia.
Qed.

Lemma indexFunc_loop_none fuel s i f :
  i <= len s ->
  (strings.indexFunc_loop fuel s i f false = (-1)%Z <->
   forallb f (runes_loop fuel (sliceFrom s i)) = true).
Proof.
  revert i; induction fuel as [|fuel IH]; intros i Hi; simpl.
  - tauto.
  - rewrite len_sliceFrom.
    destruct (i <? len s) eqn:E.
    + apply Nat.ltb_lt in E.
      replace (0 <? len s - i) with true by (symmetry; apply Nat.ltb_lt; lia).
      pose proof (Decode_size (sliceFrom s i)) as Hs.
      rewrite len_sliceFrom in Hs.
      destruct (utf8.DecodeRuneInString (sliceFrom s i)) as [r size].
      simpl in Hs. simpl forallb.
      destruct (f r); simpl.
      * rewrite sliceFrom_sliceFrom. apply IH. lia.
      * split; [lia | discriminate].
    + apply Nat.ltb_ge in E.
      replace (0 <? len s - i) with false by (symmetry; apply Nat.ltb_ge; lia).
      simpl. tauto.
Qed.

Lemma indexFunc_loop_some fuel s i f z :
  i <= len s ->
  strings.indexFunc_loop fuel s i f false = z -> z <> (-1)%Z ->
  exists j, z = Z.of_nat j /\ j < len s /\
            f (fst (utf8.DecodeRuneInString (sliceFrom s j))) = false.
Proof.
  revert i; induction fuel as [|fuel IH]; intros i Hi; simpl.
  - congruence.
  - destruct (i <? len s) eqn:E; [|congruence].
    apply Nat.ltb_lt in E.
    pose proof (Decode_size (sliceFrom s i)) as Hs.
    rewrite len_sliceFrom in Hs.
    destruct (utf8.DecodeRuneInString (sliceFrom s i)) as [r size] eqn:D.
    simpl in Hs.
    destruct (f r) eqn:F; simpl.
    + apply IH. lia.
    + intros <- _. exists i. rewrite D. auto.
Qed.

Lemma findStart_le s j k i :
  utf8.findStart s (Some j) k = Some i -> i <= j.
Proof.
  revert j; induction k as [|k IH]; intros j; simpl.
  - now intros [= ->].
  - destruct (utf8.RuneStart (byteAt s j)); [now intros [= ->]|].
    destruct j as [|j]; [destruct k; discriminate|].
    intros H. apply IH in H. lia.
Qed.

Lemma slice_0 s j : slice s 0 j = sliceTo s j.
Proof. unfold slice, sliceTo. now rewrite Nat.sub_0_r. Qed.

Lemma substring_nil i m : substring i m "" = "".
Proof. now destruct i, m. Qed.

Lemma slice_sliceFrom s i j : slice s i j = sliceTo (sliceFrom s i) (j - i).
Proof.
  unfold slice, sliceTo. generalize (j - i) as m. intros m.
  revert i; induction s as [|c s IH]; intros i.
  - now rewrite sliceFrom_nil, !substring_nil.
  - destruct i as [|i]; [now rewrite sliceFrom_0|].
    rewrite sliceFrom_S. apply IH.
Qed.

Lemma len_slice s i j : i <= j <= len s -> len (slice s i j) = j - i.
Proof.
  intros H. rewrite slice_sliceFrom, len_sliceTo, len_sliceFrom. lia.
Qed.

Lemma DecodeLast_size v :
  0 < len v -> 1 <= snd (utf8.DecodeLastRuneInString v) <= len v.
Proof.
  intros Hv. unfold utf8.DecodeLastRuneInString.
  destruct (len v =? 0) eqn:E; [apply Nat.eqb_eq in E; lia|].
  destruct (_ <? utf8.RuneSelf)%N; [simpl; lia|].
  set (start := match len v - 1 with O => O | S j => _ end).
  assert (Hst : start < len v).
  { subst start. destruct (len v - 1) as [|j] eqn:Ej; [lia|].
    destruct (utf8.findStart v (Some j) _) as [i|] eqn:F; [|lia].
    apply findStart_le in F. lia. }
  pose proof (Decode_size (slice v start (len v))) as Hs.
  rewrite len_slice in Hs by lia.
  destruct (utf8.DecodeRuneInString (slice v start (len v))) as [r size].
  simpl in Hs.
  destruct (start + size =? len v) eqn:Eq; simpl; lia.
Qed.

Lemma DecodeLast_full v r :
  0 < len v ->
  utf8.DecodeLastRuneInString v = (r, len v) ->
  r <> utf8.RuneError ->
  utf8.DecodeRuneInString v = (r, len v).
Proof.
  intros Hv. unfold utf8.DecodeLastRuneInString.
  destruct (len v =? 0) eqn:E; [apply Nat.eqb_eq in E; lia|].
  destruct (_ <? utf8.RuneSelf)%N eqn:A.
  - intros [= <- E1] _. rewrite <- E1 in *.
    destruct v as [|c v]; [discriminate|].
    simpl in A. rewrite Decode_ascii; auto.
  - set (start := match len v - 1 with O => O | S j => _ end).
    destruct (utf8.DecodeRuneInString (slice v start (len v))) as [r0 size0] eqn:D.
    destruct (start + size0 =? len v) eqn:Eq.
    + intros [= E1 E2] _. apply Nat.eqb_eq in Eq.
      assert (E0 : start = 0) by lia.
      rewrite E0, slice_0, sliceTo_len in D. congruence.
    + intros [= E1 _] Hr. congruence.
Qed.

Lemma lastIndexFunc_loop_some u fuel i :
  unicode.IsSpace (fst (utf8.DecodeRuneInString u)) = false ->
  0 < i <= len u -> i <= fuel ->
  exists j, strings.lastIndexFunc_loop fuel u i unicode.IsSpace false = Z.of_nat j
            /\ j < i.
Proof.
  intros Hfirst. revert i; induction fuel as [|fuel IH]; intros i Hi Hf; [lia|].
  simpl.
  replace (0 <? i) with true by (symmetry; apply Nat.ltb_lt; lia).
  pose proof (DecodeLast_size (sliceTo u i)) as Hs.
  rewrite len_sliceTo in Hs. replace (Nat.min i (len u)) with i in Hs by lia.
  destruct (utf8.DecodeLastRuneInString (sliceTo u i)) as [r size] eqn:D.
  simpl in Hs.
  destruct (unicode.IsSpace r) eqn:Sp; simpl.
  - destruct (Nat.eq_dec size i) as [->|Hne].
    + exfalso.
      assert (Hr : r <> utf8.RuneError) by (intros ->; discriminate Sp).
      assert (Hl : len (sliceTo u i) = i) by (rewrite len_sliceTo; lia).
      rewrite <- Hl in D at 2.
      apply DecodeLast_full in D; [|lia|exact Hr].
      rewrite Hl in D. apply Decode_prefix in D; [|lia|exact Hr].
      rewrite D in Hfirst. simpl in Hfirst. congruence.
    + destruct (IH (i - size)) as (j & -> & Hj); [lia|lia|].
      exists j. split; [reflexivity | lia].
  - exists (i - size). split; [reflexivity | lia].
Qed.

Lemma TrimRightFunc_nonempty u :
  0 < len u ->
  unicode.IsSpace (fst (utf8.DecodeRuneInString u)) = false ->
  strings.TrimRightFunc u unicode.IsSpace <> "".
Proof.
  intros Hu Hfirst. unfold strings.TrimRightFunc, strings.lastIndexFunc.
  destruct (lastIndexFunc_loop_some u (len u) (len u) Hfirst) as (j & -> & Hj);
    [lia|lia|].
  assert (Hne : u <> "") by (intros ->; simpl in Hu; lia).
  rewrite Nat2Z.id.
  pose proof (Decode_size (sliceFrom u j)) as Hs. rewrite len_sliceFrom in Hs.
  destruct (utf8.DecodeRuneInString (sliceFrom u j)) as [r wid]. simpl in Hs.
  destruct (_ && _)%bool.
  - replace (Z.to_nat (Z.of_nat j + Z.of_nat wid)) with (S (j + wid - 1)) by lia.
    now apply sliceTo_S_nonempty.
  - replace (Z.to_nat (Z.of_nat j + 1)) with (S j) by lia.
    now apply sliceTo_S_nonempty.
Qed.

Lemma TrimFunc_empty_iff s :
  strings.TrimFunc s unicode.IsSpace = "" <-> onlySpace s = true.
Proof.
  unfold strings.TrimFunc, strings.TrimLeftFunc, strings.indexFunc, onlySpace, runes.
  pose proof (indexFunc_loop_none (len s) s 0 unicode.IsSpace (Nat.le_0_l _)) as Hn.
  rewrite sliceFrom_0 in Hn. rewrite <- Hn.
  destruct (Z.eqb_spec (strings.indexFunc_loop (len s) s 0 unicode.IsSpace false) (-1))
    as [E|E].
  - now rewrite E.
  - split; [|congruence]. intros H. exfalso. revert H.
    destruct (indexFunc_loop_some (len s) s 0 unicode.IsSpace _ (Nat.le_0_l _)
                eq_refl E) as (j & -> & Hj & Hf).
    rewrite Nat2Z.id. apply TrimRightFunc_nonempty; auto.
    rewrite len_sliceFrom. lia.
Qed.

Lemma TrimSpace_right_nonempty t stop :
  0 < stop <= len t ->
  (byteAt t 0 <? 0x80)%N = true ->
  strings.asciiSpace (byteAt t 0) = false ->
  strings.TrimSpace_right t stop <> "".
Proof.
  intros Hs Ha Hn. assert (Ht : t <> "") by (intros ->; simpl in Hs; lia).
  induction stop as [|k IH]; [lia|]. simpl.
  destruct (utf8.RuneSelf <=? byteAt t k)%N eqn:E.
  - apply TrimRightFunc_nonempty.
    + rewrite len_sliceTo. lia.
    + destruct t as [|c t]; [congruence|].
      change (sliceTo (String c t) (S k)) with (String c (sliceTo t k)).
      rewrite Decode_ascii by exact Ha. simpl fst.
      rewrite IsSpace_ascii by exact Ha. exact Hn.
  - destruct (strings.asciiSpace (byteAt t k)) eqn:Sp.
    + destruct k as [|k]; [congruence|]. apply IH. lia.
    + now apply sliceTo_S_nonempty.
Qed.

Lemma runes_ascii c s :
  (N_of_ascii c <? 0x80)%N = true ->
  runes (String c s) = N_of_ascii c :: runes s.
Proof.
  intros H. unfold runes. simpl. rewrite Decode_ascii by exact H.
  now rewrite sliceFrom_S, sliceFrom_0.
Qed.

(** [TrimSpace] leaves nothing of a string exactly when the string is empty or
    all white space. *)
Theorem TrimSpace_empty_iff s :
  strings.TrimSpace s = "" <-> onlySpace s = true.
Proof.
  induction s as [|c s IH]; [now split|].
  cbn [strings.TrimSpace].
  destruct (utf8.RuneSelf <=? N_of_ascii c)%N eqn:E.
  - apply TrimFunc_empty_iff.
  - assert (Ha : (N_of_ascii c <? 0x80)%N = true).
    { apply N.leb_gt in E. now apply N.ltb_lt. }
    unfold onlySpace. rewrite runes_ascii by exact Ha. simpl forallb.
    rewrite IsSpace_ascii by exact Ha.
    destruct (strings.asciiSpace (N_of_ascii c)) eqn:Sp; cbn [andb].
    + exact IH.
    + split; [|discriminate]. intros H. exfalso. revert H.
      apply TrimSpace_right_nonempty; auto. unfold len; simpl; lia.
Qed.

(** ** The loops run to their end

    The fuel given to a loop is never what stops it: more fuel gives the same
    result. *)

Lemma indexFunc_loop_fuel fuel fuel' s i f truth :
  len s - i <= fuel -> len s - i <= fuel' ->
  strings.indexFunc_loop fuel s i f truth =
  strings.indexFunc_loop fuel' s i f truth.
Proof.
  revert fuel' i; induction fuel as [|fuel IH]; intros [|fuel'] i H H'; simpl;
    auto.
  - replace (i <? len s) with false; auto.
    symmetry; apply Nat.ltb_ge; lia.
  - replace (i <? len s) with false; auto.
    symmetry; apply Nat.ltb_ge; lia.
  - destruct (i <? len s) eqn:E; auto. apply Nat.ltb_lt in E.
    pose proof (Decode_size (sliceFrom s i)) as Hs.
    rewrite len_sliceFrom in Hs.
    destruct (utf8.DecodeRuneInString (sliceFrom s i)) as [r size].
    simpl in Hs. destruct (Bool.eqb (f r) truth); auto. apply IH; lia.
Qed.

Lemma lastIndexFunc_loop_fuel fuel fuel' s i f truth :
  i <= len s -> i <= fuel -> i <= fuel' ->
  strings.lastIndexFunc_loop fuel s i f truth =
  strings.lastIndexFunc_loop fuel' s i f truth.
Proof.
  revert fuel' i; induction fuel as [|fuel IH]; intros [|fuel'] i Hi H H'; simpl;
    auto.
  - replace (0 <? i) with false; auto. symmetry; apply Nat.ltb_ge; lia.
  - replace (0 <? i) with false; auto. symmetry; apply Nat.ltb_ge; lia.
  - destruct (0 <? i) eqn:E; auto. apply Nat.ltb_lt in E.
    pose proof (DecodeLast_size (sliceTo s i)) as Hs.
    rewrite len_sliceTo in Hs. replace (Nat.min i (len s)) with i in Hs by lia.
    destruct (utf8.DecodeLastRuneInString (sliceTo s i)) as [r size].
    simpl in Hs. destruct (Bool.eqb (f r) truth); auto. apply IH; lia.
Qed.

Lemma runes_loop_fuel fuel fuel' s :
  len s <= fuel -> len s <= fuel' -> runes_loop fuel s = runes_loop fuel' s.
Proof.
  revert fuel' s; induction fuel as [|fuel IH]; intros [|fuel'] s H H'; simpl;
    auto.
  - replace (0 <? len s) with false; auto. symmetry; apply Nat.ltb_ge; lia.
  - replace (0 <? len s) with false; auto. symmetry; apply Nat.ltb_ge; lia.
  - destruct (0 <? len s) eqn:E; auto. apply Nat.ltb_lt in E.
    pose proof (Decode_size s) as Hs.
    destruct (utf8.DecodeRuneInString s) as [r size]. simpl in Hs.
    f_equal. apply IH; rewrite len_sliceFrom; lia.
Qed.

(** ** [TrimSpace] on some strings *)

Example TrimSpace_ascii : strings.TrimSpace "  a b  " = "a b".
Proof. reflexivity. Qed.

(** A no-break space, U+00A0, then a tabulation, then an em space, U+2003. *)
Example TrimSpace_unicode_spaces :
  strings.TrimSpace
    (String "194" (String "160" (String "009"
       (String "226" (String "128" (String "131" "")))))) = "".
Proof. reflexivity. Qed.

(** A byte that starts no encoding is no white space. *)
Example TrimSpace_invalid_byte :
  strings.TrimSpace (String " " (String "128" (String " " ""))) = String "128" "".
Proof. reflexivity. Qed.

Example onlySpace_unicode_spaces :
  onlySpace (String "194" (String "160" (String "009"
       (String "226" (String "128" (String "131" "")))))) = true.
Proof. reflexivity. Qed.

(** ** Prefixes *)

Lemma substring_0_append (a b : string) :
  substring 0 (String.length a) (a ++ b) = a.
Proof.
  induction a as [|c a IH]; simpl.
  - now destruct b.
  - now rewrite IH.
Qed.

Lemma substring_0_split (n : nat) (s : string) :
  exists rest, s = (substring 0 n s ++ rest)%string.
Proof.
  revert s; induction n as [|n IH]; intros [|c s]; simpl.
  - now exists "".
  - now exists (String c s).
  - now exists "".
  - destruct (IH s) as [rest E]. exists rest. now rewrite <- E.
Qed.

Lemma length_append (a b : string) :
  String.length (a ++ b) = String.length a + String.length b.
Proof. induction a as [|c a IH]; simpl; [reflexivity | now rewrite IH]. Qed.

(** [strings.HasPrefix] decides the prefix relation. *)
Lemma HasPrefix_spec (s root : string) :
  strings.HasPrefix s root = true <-> isPrefixOf root s.
Proof.
  unfold strings.HasPrefix, isPrefixOf, sliceTo, len. split.
  - intros H. apply andb_true_iff in H as [_ H].
    apply String.eqb_eq in H.
    destruct (substring_0_split (String.length root) s) as [rest E].
    exists rest. now rewrite H in E.
  - intros [rest ->]. apply andb_true_iff. split.
    + apply Nat.leb_le. rewrite length_append. lia.
    + apply String.eqb_eq, substring_0_append.
Qed.

Lemma HasPrefix_false (s root : string) :
  strings.HasPrefix s root = false <-> ~ isPrefixOf root s.
Proof.
  rewrite <- HasPrefix_spec. destruct (strings.HasPrefix s root); split;
    congruence.
Qed.

(** ** The resolver *)

Section Resolver.

Context {World Rewrite : Type}.
Implicit Types (t : target World Rewrite) (ls : list library) (p : string).

Lemma getScanLibrary_loop_inl ls p l :
  getScanLibrary_loop ls p = inl l <-> firstMatch ls p l.
Proof.
  induction ls as [|l0 ls IH]; simpl.
  - split; [discriminate|].
    intros (before & later & E & _). now destruct before.
  - destruct (strings.HasPrefix p (Path l0)) eqn:Hp.
    + split.
      * intros [= <-]. exists [], ls. repeat split; auto.
        now apply HasPrefix_spec.
      * intros (before & later & E & Hl & Hb).
        destruct before as [|b before]; simpl in E; injection E as -> ->.
        -- reflexivity.
        -- apply Forall_inv in Hb. apply HasPrefix_false in Hb. congruence.
    + rewrite IH. split.
      * intros (before & later & -> & Hl & Hb).
        exists (l0 :: before), later. repeat split; auto.
        constructor; auto. now apply HasPrefix_false.
      * intros (before & later & E & Hl & Hb).
        destruct before as [|b before]; simpl in E; injection E as -> ->.
        -- apply HasPrefix_spec in Hl. congruence.
        -- exists before, later. repeat split; auto.
           now apply Forall_inv_tail in Hb.
Qed.

Lemma getScanLibrary_loop_inr ls p :
  (exists e, getScanLibrary_loop ls p = inr e) <-> noMatch ls p.
Proof.
  unfold noMatch. induction ls as [|l0 ls IH]; simpl.
  - split; eauto.
  - destruct (strings.HasPrefix p (Path l0)) eqn:Hp.
    + split.
      * intros [e [=]].
      * intros H. apply Forall_inv in H. apply HasPrefix_false in H.
        congruence.
    + rewrite IH. split.
      * intros H. constructor; auto. now apply HasPrefix_false.
      * apply Forall_inv_tail.
Qed.

(** The error of a miss names the folder. *)
Lemma getScanLibrary_loop_error ls p e :
  getScanLibrary_loop ls p = inr e ->
  e = Errorf_failed_determining_library p.
Proof.
  induction ls as [|l0 ls IH]; simpl.
  - now intros [= <-].
  - destruct (strings.HasPrefix p (Path l0)); [discriminate | exact IH].
Qed.

End Resolver.

(** C2.  For every path and every list of libraries, [getScanLibrary]
    returns library [l] exactly when [l] is the first library of the list, in
    its order, whose root is a string-prefix of the path, and returns an
    error exactly when no root is a prefix of the path.  The first match
    wins, not the longest: of two libraries whose roots are both prefixes,
    the earlier is returned though the root of the later is longer. *)
Theorem getScanLibrary_first_match :
  forall (World Rewrite : Type) (t : target World Rewrite) (p : string),
    (forall l : library,
        getScanLibrary t p = inl l <-> firstMatch (libraries t) p l) /\
    ((exists e : error, getScanLibrary t p = inr e) <->
     noMatch (libraries t) p) /\
    (forall (l1 l2 : library) (later : list library),
        libraries t = l1 :: later ->
        In l2 later ->
        isPrefixOf (Path l1) p ->
        isPrefixOf (Path l2) p ->
        len (Path l1) < len (Path l2) ->
        getScanLibrary t p = inl l1).
Proof.
  intros World Rewrite t p. unfold getScanLibrary. split; [|split].
  - intros l. apply getScanLibrary_loop_inl.
  - apply getScanLibrary_loop_inr.
  - intros l1 l2 later E _ H1 _ _. rewrite E. simpl.
    apply HasPrefix_spec in H1. now rewrite H1.
Qed.

(** C10.  The resolver compares bytes and looks for no path separator after
    the root: the folder [/data/tvshows/x] resolves to the library of root
    [/data/tv], a prefix of it that ends inside the component [tvshows]. *)
Theorem getScanLibrary_no_boundary_check :
  let t := sampleTarget "" false (allFine "42") in
  let tv := {| Name := "TV"; Path := "/data/tv" |} in
  In tv (libraries t) /\
  isPrefixOf (Path tv) "/data/tvshows/x" /\
  ~ isPrefixOf (Path tv ++ "/") "/data/tvshows/x" /\
  getScanLibrary t "/data/tvshows/x" = inl tv.
Proof.
  simpl. repeat split.
  - auto.
  - now exists "shows/x".
  - intros [rest E]. discriminate E.
Qed.

(** ** The ways through [Scan] *)

Section Orchestrator.

Context {World Rewrite : Type}.
Implicit Types (t : target World Rewrite) (scan : autoscan.Scan) (w : World).

(** The end of the method calls [api.Scan] once and returns its error. *)
Lemma Scan_full_run t l folder w :
  exists w' evs,
    Scan_full t l folder w =
      (fst (doScan (api t) folder w), w', evs) /\
    apiCalls evs = [CallScan folder (fst (doScan (api t) folder w))].
Proof.
  unfold Scan_full, bind, ret, logMsg, api_Scan.
  destruct (doScan (api t) folder w) as [[e|] w']; simpl; eauto.
Qed.

(** Every run of [Scan] goes one of the seven ways of [Scan_path]. *)
Lemma Scan_outcome t scan w :
  Scan_path t (rewrite t (autoscan.Folder scan))
    (result (Scan t scan w)) (apiCalls (events (Scan t scan w))).
Proof.
  unfold Scan. set (folder := rewrite t (autoscan.Folder scan)).
  destruct (getScanLibrary t folder) as [lib|e0] eqn:Hlib.
  2: { simpl. eapply path_no_library; eauto. }
  set (l := log t ++ _).
  destruct (PreciseRefresh (cfg t)) eqn:Hp.
  2: { destruct (Scan_full_run t l folder w) as (w' & evs & -> & Hc).
       unfold result, events; simpl. rewrite Hc.
       eapply path_classic; eauto. }
  unfold bind at 1. unfold Scan_precise, bind, ret, logMsg, api_GetViewID,
    api_FindItemIDByPath, api_RefreshItem.
  destruct (doGetViewID (api t) (UserID (cfg t)) (effectiveLibraryName t lib) w)
    as [[v [e|]] w1]; simpl.
  { destruct (Scan_full_run t l folder w1) as (w' & evs & -> & Hc).
    unfold result, events, apiCalls in *; simpl. rewrite Hc.
    eapply path_view_failed; eauto. }
  destruct (doFindItemIDByPath (api t) (UserID (cfg t)) v folder w1)
    as [[i [e|]] w2]; simpl.
  { destruct (Scan_full_run t l folder w2) as (w' & evs & -> & Hc).
    unfold result, events, apiCalls in *; simpl. rewrite Hc.
    eapply path_find_failed; eauto. }
  destruct (String.eqb_spec (strings.TrimSpace i) "") as [Hi|Hi]; simpl.
  { destruct (Scan_full_run t l folder w2) as (w' & evs & -> & Hc).
    unfold result, events, apiCalls in *; simpl. rewrite Hc.
    eapply path_blank_item; eauto. }
  destruct (doRefreshItem (api t) i w2) as [[e|] w3]; simpl.
  { destruct (Scan_full_run t l folder w3) as (w' & evs & -> & Hc).
    unfold result, events, apiCalls in *; simpl. rewrite Hc.
    eapply path_refresh_failed; eauto. }
  unfold result, events, apiCalls; simpl.
  eapply path_refreshed; eauto.
Qed.

(** X10.  The precise way, from the answers of the remote system: when the view
    and the item are found, the identifier of the item is not empty nor all
    white space and its refresh succeeds, the run of [Scan] is those three
    calls. *)
Lemma Scan_precise_run t scan w (lib : library) (v i : string) (w1 w2 w3 : World) :
  let folder := rewrite t (autoscan.Folder scan) in
  getScanLibrary t folder = inl lib ->
  PreciseRefresh (cfg t) = true ->
  doGetViewID (api t) (UserID (cfg t)) (effectiveLibraryName t lib) w =
    ((v, None), w1) ->
  doFindItemIDByPath (api t) (UserID (cfg t)) v folder w1 = ((i, None), w2) ->
  onlySpace i = false ->
  doRefreshItem (api t) i w2 = (None, w3) ->
  result (Scan t scan w) = None /\
  after (Scan t scan w) = w3 /\
  apiCalls (events (Scan t scan w)) =
    [CallGetViewID (UserID (cfg t)) (effectiveLibraryName t lib) v None;
     CallFindItemIDByPath (UserID (cfg t)) v folder i None;
     CallRefreshItem i None].
Proof.
  intros folder Hlib Hp Hv Hf Hi Hr.
  assert (Hb : String.eqb (strings.TrimSpace i) "" = false).
  { apply String.eqb_neq. intros E. apply TrimSpace_empty_iff in E. congruence. }
  unfold Scan. fold folder. rewrite Hlib, Hp.
  unfold bind at 1. unfold Scan_precise, bind, ret, logMsg, api_GetViewID,
    api_FindItemIDByPath, api_RefreshItem.
  rewrite Hv; simpl. rewrite Hf; simpl. rewrite Hb; simpl. rewrite Hr; simpl.
  auto.
Qed.

End Orchestrator.

(** ** Reading events *)

Lemma In_apiCalls (e : event) (evs : list event) :
  In e (apiCalls evs) <-> In e evs /\ isCall e = true.
Proof. apply filter_In. Qed.

Lemma filter_apiCalls (p : event -> bool) (evs : list event) :
  (forall e, p e = true -> isCall e = true) ->
  filter p (apiCalls evs) = filter p evs.
Proof.
  intros Hp. unfold apiCalls. induction evs as [|e evs IH]; simpl; auto.
  destruct (isCall e) eqn:He; simpl; rewrite IH; auto.
  destruct (p e) eqn:Hpe; auto. apply Hp in Hpe. congruence.
Qed.

Lemma count_apiCalls (p : event -> bool) (evs : list event) :
  (forall e, p e = true -> isCall e = true) ->
  count p (apiCalls evs) = count p evs.
Proof. intros Hp. unfold count. now rewrite filter_apiCalls. Qed.

Lemma isCallScan_isCall e : isCallScan e = true -> isCall e = true.
Proof. now destruct e. Qed.

Lemma isCallRefreshItem_isCall e : isCallRefreshItem e = true -> isCall e = true.
Proof. now destruct e. Qed.

Lemma isCallLibraries_isCall e : isCallLibraries e = true -> isCall e = true.
Proof. now destruct e. Qed.

Lemma isCallGetViewID_isCall e : isCallGetViewID e = true -> isCall e = true.
Proof. now destruct e. Qed.

Create HintDb calls.
#[local] Hint Resolve isCallScan_isCall isCallRefreshItem_isCall
  isCallLibraries_isCall isCallGetViewID_isCall : calls.

(** An event of [Scan] that is a call is among its calls. *)
Ltac to_calls H :=
  match type of H with
  | In ?e ?evs =>
      let H' := fresh in
      assert (H' : In e (apiCalls evs)) by (apply In_apiCalls; split; [exact H | reflexivity]);
      clear H; rename H' into H
  end.

(** Case analysis on the way a run of [Scan] took, once the goal speaks of
    its result and of its calls only. *)
Ltac ways t scan w :=
  let P := fresh "P" in
  let cs := fresh "cs" in
  let r := fresh "r" in
  pose proof (Scan_outcome t scan w) as P;
  set (cs := apiCalls (events (Scan t scan w))) in *;
  set (r := result (Scan t scan w)) in *;
  clearbody cs r;
  destruct P; simpl in *.

(** ** The claims about the orchestrator *)

Section Claims.

Context {World Rewrite : Type}.
Implicit Types (t : target World Rewrite) (scan : autoscan.Scan) (w : World).

(** C1.  [Scan] returns error [e] exactly when it called [api.Scan] on the
    rewritten folder and that call returned [e]: a miss of the resolver and
    the failures of [GetViewID], [FindItemIDByPath] and [RefreshItem] never
    come out of [Scan]. *)
Theorem Scan_error_iff_full_scan_failed t scan w (e : error) :
  result (Scan t scan w) = Some e <->
  In (CallScan (rewrite t (autoscan.Folder scan)) (Some e))
     (events (Scan t scan w)).
Proof.
  split; intros H.
  - cut (In (CallScan (rewrite t (autoscan.Folder scan)) (Some e))
            (apiCalls (events (Scan t scan w)))).
    { intros H'. now apply In_apiCalls in H'. }
    ways t scan w; subst; auto 6; discriminate.
  - to_calls H.
    ways t scan w; intuition (try discriminate; try congruence).
Qed.

(** C3.  When the rewritten folder resolves to a library and precise
    refresh is off, the calls of [Scan] are one call of [api.Scan], on the
    rewritten folder, whose error [Scan] returns: no [GetViewID],
    [FindItemIDByPath] or [RefreshItem]. *)
Theorem Scan_precise_off_scans_once t scan w (lib : library) :
  getScanLibrary t (rewrite t (autoscan.Folder scan)) = inl lib ->
  PreciseRefresh (cfg t) = false ->
  apiCalls (events (Scan t scan w)) =
    [CallScan (rewrite t (autoscan.Folder scan)) (result (Scan t scan w))].
Proof.
  intros Hlib Hp. ways t scan w; congruence.
Qed.

(** C4.  With precise refresh on, when [GetViewID] succeeded,
    [FindItemIDByPath] succeeded with an identifier that is not empty nor
    all white space, and [RefreshItem] of that identifier succeeded, [Scan]
    returns [nil] and has not called [api.Scan]. *)
Theorem Scan_precise_success_no_scan t scan w (u n v u' v' p i : string) :
  PreciseRefresh (cfg t) = true ->
  In (CallGetViewID u n v None) (events (Scan t scan w)) ->
  In (CallFindItemIDByPath u' v' p i None) (events (Scan t scan w)) ->
  onlySpace i = false ->
  In (CallRefreshItem i None) (events (Scan t scan w)) ->
  result (Scan t scan w) = None /\
  count isCallScan (events (Scan t scan w)) = 0.
Proof.
  intros Hp Hv Hf Hi Hr. to_calls Hv. to_calls Hf. to_calls Hr.
  rewrite <- count_apiCalls by auto with calls.
  ways t scan w; intuition (try discriminate; try congruence).
Qed.

(** C5.  With precise refresh on, when [GetViewID] succeeded and
    [FindItemIDByPath] succeeded with an identifier that is empty or all
    white space, [Scan] calls [api.Scan] on the rewritten folder, once, and
    never calls [RefreshItem]. *)
Theorem Scan_blank_item_falls_back t scan w (u n v u' v' p i : string) :
  PreciseRefresh (cfg t) = true ->
  In (CallGetViewID u n v None) (events (Scan t scan w)) ->
  In (CallFindItemIDByPath u' v' p i None) (events (Scan t scan w)) ->
  onlySpace i = true ->
  In (CallScan (rewrite t (autoscan.Folder scan)) (result (Scan t scan w)))
     (events (Scan t scan w)) /\
  count isCallScan (events (Scan t scan w)) = 1 /\
  count isCallRefreshItem (events (Scan t scan w)) = 0.
Proof.
  intros Hp Hv Hf Hi. apply TrimSpace_empty_iff in Hi.
  cut (In (CallScan (rewrite t (autoscan.Folder scan)) (result (Scan t scan w)))
          (apiCalls (events (Scan t scan w))) /\
       count isCallScan (apiCalls (events (Scan t scan w))) = 1 /\
       count isCallRefreshItem (apiCalls (events (Scan t scan w))) = 0).
  { rewrite !count_apiCalls by auto with calls. rewrite In_apiCalls. tauto. }
  to_calls Hv. to_calls Hf.
  ways t scan w; intuition (try discriminate; try congruence).
Qed.

(** C6.  With precise refresh on, when [RefreshItem] failed, the calls of
    [Scan] end with that failed call and then one call of [api.Scan] on the
    rewritten folder, the only one, and [Scan] returns what that call
    returned: [nil] when it succeeded, whatever the error of
    [RefreshItem]. *)
Theorem Scan_refresh_failed_still_scans t scan w (i : string) (e : error) :
  PreciseRefresh (cfg t) = true ->
  In (CallRefreshItem i (Some e)) (events (Scan t scan w)) ->
  (exists before : list event,
     apiCalls (events (Scan t scan w)) =
       before ++ [CallRefreshItem i (Some e);
                  CallScan (rewrite t (autoscan.Folder scan))
                           (result (Scan t scan w))]) /\
  count isCallScan (events (Scan t scan w)) = 1.
Proof.
  intros Hp Hr. to_calls Hr.
  rewrite <- count_apiCalls by auto with calls.
  ways t scan w; try (intuition (try discriminate; try congruence); fail).
  destruct Hr as [Hr|[Hr|[Hr|[Hr|[]]]]]; try discriminate.
  injection Hr as -> ->. split; [|reflexivity].
  now eexists [_; _].
Qed.

(** C7.  When no library root is a prefix of the rewritten folder, [Scan]
    returns [nil], calls nothing of the API client and leaves the remote
    system as it was. *)
Theorem Scan_no_library_no_calls t scan w :
  noMatch (libraries t) (rewrite t (autoscan.Folder scan)) ->
  result (Scan t scan w) = None /\
  apiCalls (events (Scan t scan w)) = [] /\
  after (Scan t scan w) = w.
Proof.
  intros H. apply getScanLibrary_loop_inr in H as [e He].
  split; [|split].
  - ways t scan w; unfold getScanLibrary in *; congruence.
  - ways t scan w; unfold getScanLibrary in *; congruence.
  - unfold Scan, getScanLibrary. now rewrite He.
Qed.

(** C8, as the code has it.  With precise refresh on and the rewritten
    folder resolved to [lib], the first call of [Scan] is [GetViewID], the
    only one, for the configured user and for: the configured library, as
    configured, when it is not empty nor all white space; the name of [lib]
    when the configured library is empty or all white space. *)
Theorem Scan_view_library_name t scan w (lib : library) :
  getScanLibrary t (rewrite t (autoscan.Folder scan)) = inl lib ->
  PreciseRefresh (cfg t) = true ->
  exists (name v : string) (e : option error) (rest : list event),
    apiCalls (events (Scan t scan w)) =
      CallGetViewID (UserID (cfg t)) name v e :: rest /\
    count isCallGetViewID (events (Scan t scan w)) = 1 /\
    (onlySpace (Library (cfg t)) = false -> name = Library (cfg t)) /\
    (onlySpace (Library (cfg t)) = true -> name = Name lib).
Proof.
  intros Hlib Hp.
  assert (Hn : (onlySpace (Library (cfg t)) = false ->
                effectiveLibraryName t lib = Library (cfg t)) /\
               (onlySpace (Library (cfg t)) = true ->
                effectiveLibraryName t lib = Name lib)).
  { unfold effectiveLibraryName.
    destruct (String.eqb_spec (strings.TrimSpace (Library (cfg t))) "")
      as [E|E]; split; intros H; auto.
    - apply TrimSpace_empty_iff in E. congruence.
    - apply TrimSpace_empty_iff in H. congruence. }
  rewrite <- count_apiCalls by auto with calls.
  ways t scan w; try congruence;
    match goal with
    | H : getScanLibrary _ _ = inl _ |- _ =>
        rewrite Hlib in H; injection H as <-
    end;
    do 4 eexists; (split; [reflexivity | split; [reflexivity | exact Hn]]).
Qed.

End Claims.

(** ** The instance over its lifetime *)

Section Lifetime.

Context {World Rewrite : Type}.
Implicit Types (t : target World Rewrite).

(** [Scan] never asks the remote system for its libraries. *)
Lemma Scan_no_Libraries t scan (w : World) :
  count isCallLibraries (events (Scan t scan w)) = 0.
Proof.
  rewrite <- count_apiCalls by auto with calls.
  ways t scan w; reflexivity.
Qed.

Lemma count_app (f : event -> bool) (a b : list event) :
  count f (a ++ b) = count f a + count f b.
Proof. unfold count. now rewrite filter_app, length_app. Qed.

(** A run of the method on the receiver is the run of [Scan] on the fields
    that the instance has when the method is called, and it leaves every
    field as it was: the method reads its receiver and assigns nothing. *)
Lemma target_Scan_run scan (s : store World Rewrite) :
  target_Scan scan s =
    (result (Scan (self s) scan (remote s)),
     {| self := self s; remote := after (Scan (self s) scan (remote s)) |},
     events (Scan (self s) scan (remote s))).
Proof.
  destruct s as [t w].
  unfold target_Scan, target_getScanLibrary, target_Scan_precise,
    target_Scan_full, Scan, getScanLibrary, Scan_precise, Scan_full,
    effectiveLibraryName, bindS, bind, outside, readField, retS, ret, logMsg,
    api_GetViewID, api_FindItemIDByPath, api_RefreshItem, api_Scan,
    result, after, events.
  cbv beta iota zeta delta [self remote].
  destruct (getScanLibrary_loop (libraries t) (rewrite t (autoscan.Folder scan)))
    as [lib|e0]; [|reflexivity].
  destruct (PreciseRefresh (cfg t)); cbv beta iota zeta delta [self remote].
  2: { destruct (doScan (api t) _ w) as [[e|] w1]; reflexivity. }
  destruct (doGetViewID (api t) (UserID (cfg t)) _ w) as [[v [e|]] w1];
    cbv beta iota zeta delta [self remote].
  { destruct (doScan (api t) _ w1) as [[e'|] w2]; reflexivity. }
  destruct (doFindItemIDByPath (api t) (UserID (cfg t)) v _ w1)
    as [[i [e|]] w2]; cbv beta iota zeta delta [self remote].
  { destruct (doScan (api t) _ w2) as [[e'|] w3]; reflexivity. }
  destruct (String.eqb (strings.TrimSpace i) "");
    cbv beta iota zeta delta [self remote negb].
  { destruct (doScan (api t) _ w2) as [[e'|] w3]; reflexivity. }
  destruct (doRefreshItem (api t) i w2) as [[e|] w3];
    cbv beta iota zeta delta [self remote].
  { destruct (doScan (api t) _ w3) as [[e'|] w4]; reflexivity. }
  reflexivity.
Qed.

(** However many events it has served, the instance is the one it was and
    the libraries were not asked for again. *)
Lemma serve_keeps_instance scans (s : store World Rewrite) :
  self (after (serve scans s)) = self s /\
  count isCallLibraries (events (serve scans s)) = 0.
Proof.
  revert s. induction scans as [|scan rest IH]; intros s; simpl.
  - auto.
  - unfold bindS. rewrite target_Scan_run.
    set (s1 := {| self := self s; remote := _ |}).
    destruct (IH s1) as [Hi Hc].
    pose proof (Scan_no_Libraries (self s) scan (remote s)) as Hs.
    destruct (serve rest s1) as [[errs s2] evs2].
    unfold after, events, retS in *; simpl in *.
    split; [exact Hi|].
    rewrite !count_app, Hc, Hs. reflexivity.
Qed.

(** That the fields stay is a fact about the method, not about [Method]: a
    computation that assigns a field changes the instance. *)
Remark assignLibraries_changes_instance (s : store World Rewrite)
       (ls : list library) :
  libraries (self s) <> ls ->
  self (after (assignLibraries ls s)) <> self s.
Proof.
  intros H E. apply H. unfold assignLibraries, after in E. simpl in E.
  now rewrite <- E.
Qed.

(** What [New] builds: the configuration it was given and the libraries
    that its one call of [Libraries] returned. *)
Lemma New_captures
      (GetLogger : string -> Logger)
      (NewRewriter : list Rewrite -> autoscan.Rewriter * option error)
      (newAPIClient : string -> string -> Logger -> apiClient World)
      (c : Config Rewrite) (w w0 : World) t (evs0 : list event) :
  New GetLogger NewRewriter newAPIClient c w = (inl t, w0, evs0) ->
  cfg t = c /\
  apiCalls evs0 = [CallLibraries (libraries t) None].
Proof.
  unfold New, bind, ret, logMsg, api_Libraries.
  destruct (NewRewriter (Rewrite_ c)) as [rewriter [e|]]; [discriminate|].
  destruct (doLibraries _ w) as [[libs [e|]] w1]; simpl; [discriminate|].
  intros [= <- <- <-]. auto.
Qed.

(** C9.  Over the life of an instance that [New] built, whatever events it
    serves: after them every field of the instance is as [New] set it, the
    configuration [New] was given, the libraries its call of [Libraries]
    returned at construction, the rewriter, the logger and the API client;
    no call of [Libraries] was made after construction; and every call of
    the method, in whatever state of the remote system, leaves the fields as
    they were and resolves and refreshes as [Scan] does on the fields set at
    construction. *)
Theorem instance_fixed_after_construction
        (GetLogger : string -> Logger)
        (NewRewriter : list Rewrite -> autoscan.Rewriter * option error)
        (newAPIClient : string -> string -> Logger -> apiClient World)
        (c : Config Rewrite) (w w0 : World) t (evs0 : list event)
        (scans : list autoscan.Scan) :
  New GetLogger NewRewriter newAPIClient c w = (inl t, w0, evs0) ->
  let s0 := {| self := t; remote := w0 |} in
  cfg t = c /\
  apiCalls evs0 = [CallLibraries (libraries t) None] /\
  self (after (serve scans s0)) = t /\
  count isCallLibraries (events (serve scans s0)) = 0 /\
  (forall (scan : autoscan.Scan) (s : store World Rewrite),
      self s = t ->
      self (after (target_Scan scan s)) = t /\
      result (target_Scan scan s) = result (Scan t scan (remote s)) /\
      events (target_Scan scan s) = events (Scan t scan (remote s))).
Proof.
  intros HNew s0.
  destruct (New_captures _ _ _ _ _ _ _ _ HNew) as [Hc Hl].
  destruct (serve_keeps_instance scans s0) as [Hi Hn].
  repeat split; auto.
  all: rewrite target_Scan_run; subst t; reflexivity.
Qed.

End Lifetime.

(** ** The claims at work on the sample remote system *)

Lemma sample_no_library : noMatch sampleLibraries "/data/music/x".
Proof. repeat constructor; apply HasPrefix_false; reflexivity. Qed.

Lemma Scan_precise_off_scans_once_witness :
  apiCalls (events (Scan (sampleTarget "" false (allFine "42")) inception 0)) =
    [CallScan "/data/movies/Inception" None].
Proof.
  exact (Scan_precise_off_scans_once
           (sampleTarget "" false (allFine "42")) inception 0
           {| Name := "Movies"; Path := "/data/movies" |} eq_refl eq_refl).
Defined.

Lemma Scan_precise_success_no_scan_witness :
  onlySpace "42" = false /\
  result (Scan (sampleTarget "" true (allFine "42")) inception 0) = None /\
  count isCallScan (events (Scan (sampleTarget "" true (allFine "42")) inception 0)) = 0.
Proof.
  split; [reflexivity|].
  apply (Scan_precise_success_no_scan
           (sampleTarget "" true (allFine "42")) inception 0
           "u1" "Movies" "view-Movies" "u1" "view-Movies"
           "/data/movies/Inception" "42").
  - reflexivity.
  - simpl; tauto.
  - simpl; tauto.
  - reflexivity.
  - simpl; tauto.
Defined.

Lemma Scan_blank_item_falls_back_witness :
  onlySpace " " = true /\
  In (CallScan "/data/movies/Inception" None)
     (events (Scan (sampleTarget "" true (allFine " ")) inception 0)) /\
  count isCallScan (events (Scan (sampleTarget "" true (allFine " ")) inception 0)) = 1 /\
  count isCallRefreshItem
        (events (Scan (sampleTarget "" true (allFine " ")) inception 0)) = 0.
Proof.
  split; [reflexivity|].
  apply (Scan_blank_item_falls_back
           (sampleTarget "" true (allFine " ")) inception 0
           "u1" "Movies" "view-Movies" "u1" "view-Movies"
           "/data/movies/Inception" " ").
  - reflexivity.
  - simpl; tauto.
  - simpl; tauto.
  - reflexivity.
Defined.

Lemma Scan_refresh_failed_still_scans_witness :
  result (Scan (sampleTarget "" true refreshRefused) inception 0) = None /\
  count isCallScan (events (Scan (sampleTarget "" true refreshRefused) inception 0)) = 1.
Proof.
  split; [reflexivity|].
  apply (Scan_refresh_failed_still_scans
           (sampleTarget "" true refreshRefused) inception 0
           "42" (Error "refresh refused")).
  - reflexivity.
  - simpl; tauto.
Defined.

Lemma Scan_no_library_no_calls_witness :
  result (Scan (sampleTarget "" true (allFine "42")) musicX 0) = None /\
  apiCalls (events (Scan (sampleTarget "" true (allFine "42")) musicX 0)) = [] /\
  after (Scan (sampleTarget "" true (allFine "42")) musicX 0) = 0.
Proof.
  exact (Scan_no_library_no_calls
           (sampleTarget "" true (allFine "42")) musicX 0 sample_no_library).
Defined.

Lemma Scan_view_library_name_witness :
  exists (name v : string) (e : option error) (rest : list event),
    apiCalls (events (Scan (sampleTarget " Films " true (allFine "42")) inception 0)) =
      CallGetViewID "u1" name v e :: rest /\
    count isCallGetViewID
          (events (Scan (sampleTarget " Films " true (allFine "42")) inception 0)) = 1 /\
    (onlySpace " Films " = false -> name = " Films ") /\
    (onlySpace " Films " = true -> name = "Movies").
Proof.
  exact (Scan_view_library_name
           (sampleTarget " Films " true (allFine "42")) inception 0
           {| Name := "Movies"; Path := "/data/movies" |} eq_refl eq_refl).
Defined.

Lemma instance_fixed_after_construction_witness :
  exists t : target nat unit,
    New sampleGetLogger sampleNewRewriter sampleNewAPIClient
        (sampleConfig "" true) 0 =
      (inl t, 1, [CallLibraries sampleLibraries None;
                  Log DebugLevel
                      [Str "level" "info"; Str "target" "jellyfin";
                       Str "url" "http://jellyfin:8096";
                       Interface "libraries" sampleLibraries]
                      "Retrieved libraries"]) /\
    libraries t = sampleLibraries /\
    self (after (serve [inception; musicX; inception]
                       {| self := t; remote := 1 |})) = t /\
    count isCallLibraries
          (events (serve [inception; musicX; inception]
                         {| self := t; remote := 1 |})) = 0.
Proof.
  eexists. split; [cbv; reflexivity|]. split; [reflexivity|].
  refine (let H := instance_fixed_after_construction
                     sampleGetLogger sampleNewRewriter sampleNewAPIClient
                     (sampleConfig "" true) 0 1 _ _
                     [inception; musicX; inception] eq_refl in _).
  destruct H as (_ & _ & Hi & Hn & _). split; [exact Hi | exact Hn].
Defined.

Lemma getScanLibrary_first_match_witness :
  getScanLibrary nestedTarget "/data/movies/Inception" =
    inl {| Name := "Media"; Path := "/data" |}.
Proof.
  refine (proj2 (proj2 (getScanLibrary_first_match nat unit nestedTarget
                          "/data/movies/Inception"))
                {| Name := "Media"; Path := "/data" |}
                {| Name := "Movies"; Path := "/data/movies" |}
                _ eq_refl _ _ _ _).
  - simpl; tauto.
  - now exists "/movies/Inception".
  - now exists "/Inception".
  - simpl; lia.
Defined.

(** C8, as the design words it, fails: with the library of the configuration
    set to one space, which is not empty, and the folder
    [/data/movies/Inception] resolved to the library Movies, [Scan] asks the
    view of Movies, not of the configured library. *)
Lemma Scan_nonempty_override_counterexample :
  ~ (forall (t : target nat unit) (scan : autoscan.Scan) (w : nat)
            (lib : library) (u n v : string) (e : option error),
        PreciseRefresh (cfg t) = true ->
        getScanLibrary t (rewrite t (autoscan.Folder scan)) = inl lib ->
        In (CallGetViewID u n v e) (events (Scan t scan w)) ->
        (Library (cfg t) <> "" -> n = Library (cfg t)) /\
        (Library (cfg t) = "" -> n = Name lib)).
Proof.
  intros H.
  destruct (H (sampleTarget " " true (allFine "42")) inception 0
              {| Name := "Movies"; Path := "/data/movies" |}
              "u1" "Movies" "view-Movies" None eq_refl eq_refl) as [Hn _].
  - simpl; tauto.
  - assert (E : "Movies" = " ") by (apply Hn; discriminate).
    discriminate E.
Qed.

(** * More of the target *)

(** A run of [Scan] in full, logs included: case analysis on the resolution,
    on the configuration and on every answer of the remote system. *)
Ltac run_Scan :=
  unfold Scan, Scan_precise, Scan_full, bind, ret, logMsg, api_GetViewID,
    api_FindItemIDByPath, api_RefreshItem, api_Scan, result, after, events;
  repeat (match goal with
          | |- context [getScanLibrary ?t ?f] =>
              destruct (getScanLibrary t f) as [?lib|?e0] eqn:?Hlib
          | |- context [PreciseRefresh ?c] =>
              destruct (PreciseRefresh c) eqn:?Hp
          | |- context [doGetViewID ?a ?u ?n ?w] =>
              destruct (doGetViewID a u n w) as [[?v [?e|]] ?w] eqn:?Hv
          | |- context [doFindItemIDByPath ?a ?u ?v ?p ?w] =>
              destruct (doFindItemIDByPath a u v p w) as [[?i [?e|]] ?w] eqn:?Hf
          | |- context [String.eqb (strings.TrimSpace ?i) ""] =>
              destruct (String.eqb_spec (strings.TrimSpace i) "") as [?Hi|?Hi]
          | |- context [doRefreshItem ?a ?i ?w] =>
              destruct (doRefreshItem a i w) as [[?e|] ?w] eqn:?Hr
          | |- context [doScan ?a ?p ?w] =>
              destruct (doScan a p w) as [[?e|] ?w] eqn:?Hs
          end; cbn [fst snd negb app]).

Ltac split_In :=
  repeat match goal with
         | H : _ \/ _ |- _ => destruct H as [H|H]
         | H : False |- _ => destruct H
         | H : @eq event _ _ |- _ => discriminate H
         | H : Log _ _ _ = Log _ ?fs _ |- _ => is_var fs; injection H as <- <- <-
         | H : Log _ _ _ = Log _ ?fs _ |- _ => is_var fs; injection H as <-
         | H : CallScan _ _ = CallScan _ _ |- _ => injection H as <- <-
         | H : CallRefreshItem _ _ = CallRefreshItem _ _ |- _ => injection H as <- <-
         | H : CallGetViewID _ _ _ _ = CallGetViewID _ _ _ _ |- _ =>
             injection H as <- <- <- <-
         | H : CallFindItemIDByPath _ _ _ _ _ = CallFindItemIDByPath _ _ _ _ _ |- _ =>
             injection H as <- <- <- <- <-
         | H : @eq event ?a ?a |- _ => clear H
         end.

Section Runs.

Context {World Rewrite : Type}.
Implicit Types (t : target World Rewrite) (scan : autoscan.Scan) (w : World).

(** X14.  Every record [Scan] logs carries the context of the logger of the
    target first; once the folder is resolved to [lib], it carries the
    rewritten folder and the name of [lib] next. *)
Theorem Scan_log_context t scan w (lvl : level) (fs : list field) (msg : string) :
  In (Log lvl fs msg) (events (Scan t scan w)) ->
  (exists rest : list field, fs = log t ++ rest) /\
  (forall lib : library,
      getScanLibrary t (rewrite t (autoscan.Folder scan)) = inl lib ->
      exists rest : list field,
        fs = log t ++ [Str "path" (rewrite t (autoscan.Folder scan));
                       Str "library" (Name lib)] ++ rest).
Proof.
  run_Scan; cbn [In]; intros H; split_In;
    (split; [rewrite <- ?app_assoc; eexists; reflexivity|]);
    intros lib' [= <-]; rewrite <- ?app_assoc; eexists; reflexivity.
Qed.

(** X7.  When no library root is a prefix of the rewritten folder, all [Scan]
    does is to log one warning, with the error of the resolver, which names
    the folder. *)
Theorem Scan_miss_warns t scan w :
  noMatch (libraries t) (rewrite t (autoscan.Folder scan)) ->
  events (Scan t scan w) =
    [Log WarnLevel
         (log t ++ [Err (Error (rewrite t (autoscan.Folder scan)
                                ++ ": failed determining library"))])
         "No target libraries found"].
Proof.
  intros H. apply getScanLibrary_loop_inr in H as [e He].
  pose proof (getScanLibrary_loop_error _ _ _ He) as ->.
  unfold Scan, getScanLibrary. rewrite He. reflexivity.
Qed.

(** X8.  A failed view lookup: [Scan] goes on with [api.Scan] in the state
    the lookup left, returns what [api.Scan] answers there, and has logged
    the error of the lookup as a warning. *)
Theorem Scan_view_failure_falls_back t scan w (lib : library) (v : string)
        (e : error) (w1 : World) :
  let folder := rewrite t (autoscan.Folder scan) in
  let name := effectiveLibraryName t lib in
  getScanLibrary t folder = inl lib ->
  PreciseRefresh (cfg t) = true ->
  doGetViewID (api t) (UserID (cfg t)) name w = ((v, Some e), w1) ->
  result (Scan t scan w) = fst (doScan (api t) folder w1) /\
  after (Scan t scan w) = snd (doScan (api t) folder w1) /\
  apiCalls (events (Scan t scan w)) =
    [CallGetViewID (UserID (cfg t)) name v (Some e);
     CallScan folder (fst (doScan (api t) folder w1))] /\
  In (Log WarnLevel
          (log t ++ [Str "path" folder; Str "library" (Name lib);
                     Err e; Str "library" name])
          "Cannot resolve Jellyfin viewId; falling back to library scan")
     (events (Scan t scan w)).
Proof.
  intros folder name Hlib Hp Hv.
  unfold Scan. fold folder. rewrite Hlib, Hp.
  unfold bind at 1. unfold Scan_precise, bind, ret, logMsg, api_GetViewID.
  fold name. rewrite Hv. cbn [fst snd app].
  unfold Scan_full, bind, ret, logMsg, api_Scan, result, after, events.
  destruct (doScan (api t) folder w1) as [[e'|] w2]; cbn;
    rewrite <- ?app_assoc; cbn; auto 10.
Qed.

(** X9.  A failed item lookup: [Scan] goes on with [api.Scan] in the state
    the lookup left, returns what [api.Scan] answers there, never calls
    [RefreshItem], and has logged the error of the lookup as a warning. *)
Theorem Scan_find_failure_falls_back t scan w (lib : library) (v i : string)
        (e : error) (w1 w2 : World) :
  let folder := rewrite t (autoscan.Folder scan) in
  let name := effectiveLibraryName t lib in
  getScanLibrary t folder = inl lib ->
  PreciseRefresh (cfg t) = true ->
  doGetViewID (api t) (UserID (cfg t)) name w = ((v, None), w1) ->
  doFindItemIDByPath (api t) (UserID (cfg t)) v folder w1 = ((i, Some e), w2) ->
  result (Scan t scan w) = fst (doScan (api t) folder w2) /\
  after (Scan t scan w) = snd (doScan (api t) folder w2) /\
  apiCalls (events (Scan t scan w)) =
    [CallGetViewID (UserID (cfg t)) name v None;
     CallFindItemIDByPath (UserID (cfg t)) v folder i (Some e);
     CallScan folder (fst (doScan (api t) folder w2))] /\
  In (Log WarnLevel
          (log t ++ [Str "path" folder; Str "library" (Name lib);
                     Err e; Str "path" folder])
          "Cannot match Jellyfin item by exact Path; falling back to library scan")
     (events (Scan t scan w)).
Proof.
  intros folder name Hlib Hp Hv Hf.
  unfold Scan. fold folder. rewrite Hlib, Hp.
  unfold bind at 1. unfold Scan_precise, bind, ret, logMsg, api_GetViewID,
    api_FindItemIDByPath.
  fold name. rewrite Hv. cbn [fst snd app]. rewrite Hf. cbn [fst snd app].
  unfold Scan_full, bind, ret, logMsg, api_Scan, result, after, events.
  destruct (doScan (api t) folder w2) as [[e'|] w3]; cbn;
    rewrite <- ?app_assoc; cbn; auto 10.
Qed.

(** X11.  [Scan] retries nothing: it makes four calls at most, each of
    [GetViewID], [FindItemIDByPath], [RefreshItem] and [api.Scan] once at
    most, and never calls [Libraries] or [Available]. *)
Theorem Scan_calls_once_at_most t scan w :
  List.length (apiCalls (events (Scan t scan w))) <= 4 /\
  count isCallGetViewID (events (Scan t scan w)) <= 1 /\
  count isCallFindItemIDByPath (events (Scan t scan w)) <= 1 /\
  count isCallRefreshItem (events (Scan t scan w)) <= 1 /\
  count isCallScan (events (Scan t scan w)) <= 1 /\
  count isCallLibraries (events (Scan t scan w)) = 0 /\
  count isCallAvailable (events (Scan t scan w)) = 0.
Proof.
  rewrite <- !(count_apiCalls _ (events (Scan t scan w)))
    by (intros []; simpl; congruence).
  ways t scan w; unfold count; simpl; lia.
Qed.

(** X12.  What [Scan] passes to the API client.  [api.Scan] gets the rewritten
    folder.  [FindItemIDByPath] gets the configured user, the rewritten
    folder and the view that [GetViewID] returned without error.
    [RefreshItem] gets the identifier that [FindItemIDByPath] returned
    without error, as returned, and that identifier is not empty nor all
    white space. *)
Theorem Scan_call_arguments t scan w :
  let folder := rewrite t (autoscan.Folder scan) in
  let evs := events (Scan t scan w) in
  (forall p r, In (CallScan p r) evs -> p = folder) /\
  (forall u v p i e,
      In (CallFindItemIDByPath u v p i e) evs ->
      u = UserID (cfg t) /\ p = folder /\
      exists name, In (CallGetViewID (UserID (cfg t)) name v None) evs) /\
  (forall i e,
      In (CallRefreshItem i e) evs ->
      onlySpace i = false /\
      exists v, In (CallFindItemIDByPath (UserID (cfg t)) v folder i None) evs).
Proof.
  intros folder evs. subst evs.
  assert (Hin : forall e, isCall e = true ->
                          In e (events (Scan t scan w)) ->
                          In e (apiCalls (events (Scan t scan w)))).
  { intros e He H. apply In_apiCalls. auto. }
  assert (Hout : forall e, In e (apiCalls (events (Scan t scan w))) ->
                           In e (events (Scan t scan w))).
  { intros e H. now apply In_apiCalls in H. }
  assert (Hblank : forall i, strings.TrimSpace i <> "" -> onlySpace i = false).
  { intros i H. destruct (onlySpace i) eqn:E; auto.
    apply TrimSpace_empty_iff in E. congruence. }
  split; [|split].
  - intros p r H. apply Hin in H; [|reflexivity]. clear Hin Hout.
    fold folder in H |- *. revert H.
    ways t scan w; intros Hin'; split_In; reflexivity.
  - intros u v p i e H. apply Hin in H; [|reflexivity].
    cut (u = UserID (cfg t) /\ p = folder /\
         exists name, In (CallGetViewID (UserID (cfg t)) name v None)
                         (apiCalls (events (Scan t scan w)))).
    { intros (Hu & Hp' & name & Hn). eauto. }
    clear Hin Hout. revert H.
    ways t scan w; intros Hin'; split_In; repeat split; eexists; simpl; eauto.
  - intros i e H. apply Hin in H; [|reflexivity].
    cut (onlySpace i = false /\
         exists v, In (CallFindItemIDByPath (UserID (cfg t)) v folder i None)
                      (apiCalls (events (Scan t scan w)))).
    { intros (Hb & v & Hv). eauto. }
    clear Hin Hout. revert H.
    ways t scan w; intros Hin'; split_In; (split; [auto|]); eexists; simpl; eauto.
Qed.

(** X15.  [Scan] logs that the scan moved to the target exactly when it called
    [api.Scan] and the call succeeded. *)
Theorem Scan_moved_logged_iff t scan w :
  (exists fs, In (Log InfoLevel fs "Scan moved to target")
                 (events (Scan t scan w))) <->
  In (CallScan (rewrite t (autoscan.Folder scan)) None) (events (Scan t scan w)).
Proof.
  run_Scan; cbn [In]; split;
    try (intros [fs H]); try (intros H); split_In; auto 10;
    try (eexists; auto 10; fail).
Qed.

(** X16.  The failures of the precise way are logged with their errors: those
    of [GetViewID] and [FindItemIDByPath] as warnings, that of [RefreshItem]
    as an error.  The failure of [api.Scan] is not logged by [Scan]: no
    record follows the call. *)
Theorem Scan_failures_logged t scan w :
  let evs := events (Scan t scan w) in
  (forall u n v e,
      In (CallGetViewID u n v (Some e)) evs ->
      exists l, In (Log WarnLevel (l ++ [Err e; Str "library" n])
                        "Cannot resolve Jellyfin viewId; falling back to library scan")
                   evs) /\
  (forall u v p i e,
      In (CallFindItemIDByPath u v p i (Some e)) evs ->
      exists l, In (Log WarnLevel (l ++ [Err e; Str "path" p])
                        "Cannot match Jellyfin item by exact Path; falling back to library scan")
                   evs) /\
  (forall i e,
      In (CallRefreshItem i (Some e)) evs ->
      exists l, In (Log ErrorLevel (l ++ [Err e; Str "itemId" i])
                        "Jellyfin item refresh failed; falling back to library scan")
                   evs) /\
  (forall p e,
      In (CallScan p (Some e)) evs ->
      exists before, evs = before ++ [CallScan p (Some e)]).
Proof.
  intros evs; subst evs.
  run_Scan; cbn [In]; repeat split; intros; split_In;
    try (eexists; cbn [In]; auto 10; fail).
  all: try (eexists [_]; reflexivity).
  all: try (eexists [_; _]; reflexivity).
  all: try (eexists [_; _; _]; reflexivity).
  all: try (eexists [_; _; _; _]; reflexivity).
  all: try (eexists [_; _; _; _; _]; reflexivity).
  all: try (eexists [_; _; _; _; _; _]; reflexivity).
Qed.

(** X17.  A property of the remote state that [GetViewID],
    [FindItemIDByPath], [RefreshItem] and [api.Scan] keep is kept by [Scan],
    whatever [Libraries] and [Available] do to it. *)
Theorem Scan_keeps_remote_invariant t scan w (P : World -> Prop) :
  (forall u n w0, P w0 -> P (snd (doGetViewID (api t) u n w0))) ->
  (forall u v p w0, P w0 -> P (snd (doFindItemIDByPath (api t) u v p w0))) ->
  (forall i w0, P w0 -> P (snd (doRefreshItem (api t) i w0))) ->
  (forall p w0, P w0 -> P (snd (doScan (api t) p w0))) ->
  P w -> P (after (Scan t scan w)).
Proof.
  intros Hv Hf Hr Hs Hw.
  unfold Scan, Scan_precise, Scan_full, bind, ret, logMsg, api_GetViewID,
    api_FindItemIDByPath, api_RefreshItem, api_Scan, result, after, events.
  destruct (getScanLibrary t _) as [lib|e0]; [|exact Hw].
  destruct (PreciseRefresh (cfg t)).
  2: { cbn. specialize (Hs (rewrite t (autoscan.Folder scan)) w Hw).
       destruct (doScan _ _ w) as [[e|] w1]; exact Hs. }
  cbn.
  specialize (Hv (UserID (cfg t)) (effectiveLibraryName t lib) w Hw).
  destruct (doGetViewID _ _ _ w) as [[v [e|]] w1]; cbn in *.
  { specialize (Hs (rewrite t (autoscan.Folder scan)) w1 Hv).
    destruct (doScan _ _ w1) as [[e'|] w2]; exact Hs. }
  specialize (Hf (UserID (cfg t)) v (rewrite t (autoscan.Folder scan)) w1 Hv).
  destruct (doFindItemIDByPath _ _ _ _ w1) as [[i [e|]] w2]; cbn in *.
  { specialize (Hs (rewrite t (autoscan.Folder scan)) w2 Hf).
    destruct (doScan _ _ w2) as [[e'|] w3]; exact Hs. }
  destruct (String.eqb (strings.TrimSpace i) ""); cbn.
  { specialize (Hs (rewrite t (autoscan.Folder scan)) w2 Hf).
    destruct (doScan _ _ w2) as [[e'|] w3]; exact Hs. }
  specialize (Hr i w2 Hf).
  destruct (doRefreshItem _ i w2) as [[e|] w3]; cbn in *; [|exact Hr].
  specialize (Hs (rewrite t (autoscan.Folder scan)) w3 Hr).
  destruct (doScan _ _ w3) as [[e'|] w4]; exact Hs.
Qed.

(** X13.  How a run of [Scan] ends: with no call at all and [nil], when no
    library matched; or with a successful [RefreshItem] as its last call and
    [nil]; or with [api.Scan] on the rewritten folder as its last call and
    the error of that call. *)
Theorem Scan_ends t scan w :
  let folder := rewrite t (autoscan.Folder scan) in
  let calls := apiCalls (events (Scan t scan w)) in
  (calls = [] /\ result (Scan t scan w) = None /\
   noMatch (libraries t) folder) \/
  (exists before i, calls = before ++ [CallRefreshItem i None] /\
                    result (Scan t scan w) = None /\
                    PreciseRefresh (cfg t) = true) \/
  (exists before, calls = before ++ [CallScan folder (result (Scan t scan w))]).
Proof.
  intros folder calls. subst folder calls.
  ways t scan w.
  - left. repeat split. apply getScanLibrary_loop_inr. eauto.
  - right; right. now exists [].
  - right; right. now eexists [_].
  - right; right. now eexists [_; _].
  - right; right. now eexists [_; _].
  - right; right. now eexists [_; _; _].
  - right; left. now eexists [_; _], _.
Qed.

(** X4.  A library whose root is the empty string matches every folder: with
    one among the libraries the resolver never fails, and as the first
    library it takes every folder. *)
Theorem getScanLibrary_empty_root t (l : library) (folder : string) :
  In l (libraries t) -> Path l = "" ->
  (exists l', getScanLibrary t folder = inl l') /\
  (forall later, libraries t = l :: later -> getScanLibrary t folder = inl l).
Proof.
  intros Hin Hp. unfold getScanLibrary. split.
  - induction (libraries t) as [|l0 ls IH]; [destruct Hin|]. simpl.
    destruct (strings.HasPrefix folder (Path l0)) eqn:E; [eauto|].
    destruct Hin as [->|Hin]; [|auto].
    rewrite Hp in E. unfold strings.HasPrefix in E.
    destruct folder; discriminate E.
  - intros later ->. simpl. rewrite Hp.
    unfold strings.HasPrefix. now destruct folder.
Qed.

(** X5.  Libraries added after the others change no resolution that
    succeeded. *)
Theorem getScanLibrary_more_libraries t t' (more : list library)
        (folder : string) (l : library) :
  libraries t' = libraries t ++ more ->
  getScanLibrary t folder = inl l ->
  getScanLibrary t' folder = inl l.
Proof.
  unfold getScanLibrary. intros ->.
  induction (libraries t) as [|l0 ls IH]; simpl; [discriminate|].
  destruct (strings.HasPrefix folder (Path l0)); auto.
Qed.

(** X6.  What is below a folder that resolves does resolve: to the same
    library, or to one that comes before it in the list. *)
Theorem getScanLibrary_below t (folder rest : string) (l : library) :
  getScanLibrary t folder = inl l ->
  exists (before later : list library) (l' : library),
    libraries t = before ++ l :: later /\
    getScanLibrary t (folder ++ rest) = inl l' /\
    (l' = l \/ In l' before).
Proof.
  unfold getScanLibrary.
  induction (libraries t) as [|l0 ls IH]; simpl; [discriminate|].
  destruct (strings.HasPrefix folder (Path l0)) eqn:E.
  - intros [= <-]. exists [], ls, l0. split; [reflexivity|].
    apply HasPrefix_spec in E as [r ->].
    assert (E' : strings.HasPrefix ((Path l0 ++ r) ++ rest) (Path l0) = true).
    { apply HasPrefix_spec. exists (r ++ rest)%string.
      clear. induction (Path l0) as [|c p IHp]; simpl; [reflexivity|].
      now rewrite IHp. }
    rewrite E'. auto.
  - intros H. destruct (IH H) as (before & later & l' & -> & Hr & Hor).
    destruct (strings.HasPrefix (folder ++ rest) (Path l0)) eqn:E'.
    + exists (l0 :: before), later, l0. simpl. auto.
    + exists (l0 :: before), later, l'. simpl. intuition.
Qed.

End Runs.

Section Construction.

Context {World Rewrite : Type}.
Variable GetLogger : string -> Logger.
Variable NewRewriter : list Rewrite -> autoscan.Rewriter * option error.
Variable newAPIClient : string -> string -> Logger -> apiClient World.

(** X1.  [New] fails exactly when the rewrite rules are refused or the call of
    [Libraries] fails, and with that error.  When the rules are refused it
    has not called the remote system. *)
Theorem New_fails_iff (c : Config Rewrite) (w : World) (e : error) :
  let l := GetLogger (Verbosity c) ++ [Str "target" "jellyfin"; Str "url" (URL c)] in
  let a := newAPIClient (URL c) (Token c) l in
  (result (New GetLogger NewRewriter newAPIClient c w) = inr e <->
   snd (NewRewriter (Rewrite_ c)) = Some e \/
   (snd (NewRewriter (Rewrite_ c)) = None /\
    snd (fst (doLibraries a w)) = Some e)) /\
  (snd (NewRewriter (Rewrite_ c)) = Some e ->
   events (New GetLogger NewRewriter newAPIClient c w) = [] /\
   after (New GetLogger NewRewriter newAPIClient c w) = w) /\
  (snd (NewRewriter (Rewrite_ c)) = None ->
   snd (fst (doLibraries a w)) = Some e ->
   events (New GetLogger NewRewriter newAPIClient c w) =
     [CallLibraries (fst (fst (doLibraries a w))) (Some e)]).
Proof.
  intros l a. unfold New, bind, ret, logMsg, api_Libraries, result, after, events.
  fold l. fold a.
  destruct (NewRewriter (Rewrite_ c)) as [rw [e1|]]; cbn.
  - split; [|split].
    + split; [intros [= ->]; auto | intros [H|[H _]]; congruence].
    + auto.
    + discriminate.
  - destruct (doLibraries a w) as [[libs [e2|]] w1]; cbn.
    + split; [|split].
      * split; [intros [= ->]; auto | intros [H|[_ H]]; congruence].
      * discriminate.
      * intros _ [= ->]. reflexivity.
    + split; [|split].
      * split; [discriminate | intros [H|[_ H]]; discriminate].
      * discriminate.
      * discriminate.
Qed.

(** X2.  When the remote system has no library, [New] succeeds all the same,
    and the target it builds drops every event: [Scan] returns [nil] and
    calls nothing. *)
Theorem New_without_libraries_drops_all
        (c : Config Rewrite) (w w0 : World) (t : target World Rewrite)
        (evs0 : list event) (scan : autoscan.Scan) (w' : World) :
  New GetLogger NewRewriter newAPIClient c w = (inl t, w0, evs0) ->
  In (CallLibraries [] None) evs0 ->
  result (Scan t scan w') = None /\
  apiCalls (events (Scan t scan w')) = [] /\
  after (Scan t scan w') = w'.
Proof.
  intros HNew Hin.
  destruct (New_captures _ _ _ _ _ _ _ _ HNew) as [_ Hl].
  assert (Hc : In (CallLibraries [] None) (apiCalls evs0)).
  { apply In_apiCalls. auto. }
  rewrite Hl in Hc. destruct Hc as [[= E]|[]].
  unfold Scan, getScanLibrary. rewrite E. cbn. auto.
Qed.

(** X3.  The target that [New] builds, at work: [Scan] sends to the remote
    system the folder rewritten by the rewriter of the configured rules, asks
    for the configured user, and logs with the context of the logger of the
    configured verbosity, then the target and the URL. *)
Theorem New_then_Scan (c : Config Rewrite) (w w0 : World)
        (t : target World Rewrite) (evs0 : list event)
        (scan : autoscan.Scan) (w' : World) :
  New GetLogger NewRewriter newAPIClient c w = (inl t, w0, evs0) ->
  let folder := fst (NewRewriter (Rewrite_ c)) (autoscan.Folder scan) in
  let evs := events (Scan t scan w') in
  (forall p r, In (CallScan p r) evs -> p = folder) /\
  (forall u v p i e, In (CallFindItemIDByPath u v p i e) evs ->
                     u = UserID c /\ p = folder) /\
  (forall u n v e, In (CallGetViewID u n v e) evs -> u = UserID c) /\
  (forall lvl fs msg,
      In (Log lvl fs msg) evs ->
      exists rest,
        fs = (GetLogger (Verbosity c)
              ++ [Str "target" "jellyfin"; Str "url" (URL c)]) ++ rest).
Proof.
  intros HNew folder evs. subst folder evs.
  assert (Ht : cfg t = c /\ rewrite t = fst (NewRewriter (Rewrite_ c)) /\
               log t = GetLogger (Verbosity c)
                       ++ [Str "target" "jellyfin"; Str "url" (URL c)]).
  { revert HNew. unfold New, bind, ret, logMsg, api_Libraries.
    destruct (NewRewriter (Rewrite_ c)) as [rw [e|]]; [discriminate|].
    destruct (doLibraries _ w) as [[libs [e|]] w1]; cbn; [discriminate|].
    intros [= <- _ _]. auto. }
  destruct Ht as (Hc & Hrw & Hlog).
  rewrite <- Hrw, <- Hlog, <- Hc. clear HNew Hc Hrw Hlog.
  run_Scan; cbn [In]; repeat split; intros; split_In; auto;
    rewrite <- ?app_assoc; eexists; reflexivity.
Qed.

End Construction.

Lemma forallb_false_exists {A : Type} (f : A -> bool) (l : list A) :
  forallb f l = false <-> exists x, In x l /\ f x = false.
Proof.
  induction l as [|a l IH]; simpl.
  - split; [discriminate | intros (x & [] & _)].
  - destruct (f a) eqn:E; simpl.
    + rewrite IH. split.
      * intros (x & Hx & Hf). eauto.
      * intros (x & [->|Hx] & Hf); [congruence | eauto].
    + split; eauto.
Qed.

(** X18.  [strings.TrimSpace], as [Scan] tests it on the configured library
    and on the identifier of the item: it leaves something of a string
    exactly when one of the runes of the string, decoded as a [range] loop
    decodes them, is no white space. *)
Theorem TrimSpace_nonempty_iff (s : string) :
  strings.TrimSpace s <> "" <->
  exists r : N, In r (runes s) /\ unicode.IsSpace r = false.
Proof.
  rewrite <- forallb_false_exists. fold (onlySpace s).
  rewrite TrimSpace_empty_iff. destruct (onlySpace s); split; congruence.
Qed.

Lemma Scan_log_context_witness :
  exists rest : list field,
    [Str "target" "jellyfin"; Str "url" "http://jellyfin:8096";
     Str "path" "/data/movies/Inception"; Str "library" "Movies"] =
    log (sampleTarget "" false (allFine "42")) ++ rest.
Proof.
  refine (proj1 (Scan_log_context (sampleTarget "" false (allFine "42"))
                   inception 0 InfoLevel _ "Scan moved to target" _)).
  simpl; tauto.
Defined.

Lemma Scan_miss_warns_witness :
  events (Scan (sampleTarget "" true (allFine "42")) musicX 0) =
    [Log WarnLevel
         [Str "target" "jellyfin"; Str "url" "http://jellyfin:8096";
          Err (Error "/data/music/x: failed determining library")]
         "No target libraries found"].
Proof.
  exact (Scan_miss_warns (sampleTarget "" true (allFine "42")) musicX 0
           sample_no_library).
Defined.

Lemma Scan_view_failure_falls_back_witness :
  result (Scan (sampleTarget "" true viewRefused) inception 0)
  = Some (Error "scan refused") /\
  after (Scan (sampleTarget "" true viewRefused) inception 0) = 2.
Proof.
  refine (let H := Scan_view_failure_falls_back
                     (sampleTarget "" true viewRefused) inception 0
                     {| Name := "Movies"; Path := "/data/movies" |}
                     "" (Error "view not found") 1 eq_refl eq_refl eq_refl in _).
  destruct H as (Hr & Ha & _). split; [exact Hr | exact Ha].
Defined.

Lemma Scan_find_failure_falls_back_witness :
  result (Scan (sampleTarget "" true findRefused) inception 0) = None /\
  after (Scan (sampleTarget "" true findRefused) inception 0) = 3.
Proof.
  refine (let H := Scan_find_failure_falls_back
                     (sampleTarget "" true findRefused) inception 0
                     {| Name := "Movies"; Path := "/data/movies" |}
                     "view-Movies" "" (Error "no item") 1 2
                     eq_refl eq_refl eq_refl eq_refl in _).
  destruct H as (Hr & Ha & _). split; [exact Hr | exact Ha].
Defined.

Lemma Scan_precise_run_witness :
  result (Scan (sampleTarget "" true (allFine "42")) inception 0) = None /\
  after (Scan (sampleTarget "" true (allFine "42")) inception 0) = 3.
Proof.
  refine (let H := Scan_precise_run
                     (sampleTarget "" true (allFine "42")) inception 0
                     {| Name := "Movies"; Path := "/data/movies" |}
                     "view-Movies" "42" 1 2 3
                     eq_refl eq_refl eq_refl eq_refl eq_refl eq_refl in _).
  destruct H as (Hr & Ha & _). split; [exact Hr | exact Ha].
Defined.

Lemma Scan_keeps_remote_invariant_witness :
  5 <= after (Scan (sampleTarget "" true refreshRefused) inception 5).
Proof.
  apply (Scan_keeps_remote_invariant
           (sampleTarget "" true refreshRefused) inception 5 (fun n => 5 <= n));
    simpl; intros; lia.
Defined.

Lemma getScanLibrary_empty_root_witness :
  getScanLibrary catchAllTarget "/data/music/x" = inl {| Name := "All"; Path := "" |}.
Proof.
  refine (proj2 (getScanLibrary_empty_root catchAllTarget
                   {| Name := "All"; Path := "" |} "/data/music/x" _ eq_refl)
                sampleLibraries eq_refl).
  simpl; tauto.
Defined.

Lemma getScanLibrary_more_libraries_witness :
  getScanLibrary grownTarget "/data/tv/show" = inl {| Name := "TV"; Path := "/data/tv" |}.
Proof.
  exact (getScanLibrary_more_libraries
           (sampleTarget "" false (allFine "42")) grownTarget
           [{| Name := "Music"; Path := "/data/music" |}] "/data/tv/show"
           {| Name := "TV"; Path := "/data/tv" |} eq_refl eq_refl).
Defined.

Lemma getScanLibrary_below_witness :
  exists (before later : list library) (l' : library),
    libraries nestedTarget = before ++ {| Name := "Media"; Path := "/data" |} :: later /\
    getScanLibrary nestedTarget ("/data/movies" ++ "/Inception") = inl l' /\
    (l' = {| Name := "Media"; Path := "/data" |} \/ In l' before).
Proof.
  exact (getScanLibrary_below nestedTarget "/data/movies" "/Inception"
           {| Name := "Media"; Path := "/data" |} eq_refl).
Defined.

Lemma New_without_libraries_drops_all_witness :
  exists t : target nat unit,
    result (New sampleGetLogger sampleNewRewriter sampleNewEmptyAPIClient
                (sampleConfig "" true) 0) = inl t /\
    result (Scan t inception 1) = None /\
    apiCalls (events (Scan t inception 1)) = [] /\
    after (Scan t inception 1) = 1.
Proof.
  eexists. split; [cbv; reflexivity|].
  refine (New_without_libraries_drops_all
            sampleGetLogger sampleNewRewriter sampleNewEmptyAPIClient
            (sampleConfig "" true) 0 1 _ _ inception 1 eq_refl _).
  simpl; tauto.
Defined.

Lemma New_then_Scan_witness :
  exists t : target nat unit,
    result (New sampleGetLogger sampleMountRewriter sampleNewAPIClient
                (sampleConfig "" false) 0) = inl t /\
    In (CallScan "/data/movies/Inception" None) (events (Scan t rawInception 1)) /\
    forall p r, In (CallScan p r) (events (Scan t rawInception 1)) ->
                p = "/data/movies/Inception".
Proof.
  eexists. split; [cbv; reflexivity|]. split; [simpl; tauto|].
  refine (proj1 (New_then_Scan
                   sampleGetLogger sampleMountRewriter sampleNewAPIClient
                   (sampleConfig "" false) 0 1 _ _ rawInception 1 eq_refl)).
Defined.

Lemma New_fails_iff_witness :
  result (New sampleGetLogger sampleRefusingRewriter sampleNewAPIClient
              (sampleConfig "" true) 0) = inr (Error "bad rule") /\
  events (New sampleGetLogger sampleRefusingRewriter sampleNewAPIClient
              (sampleConfig "" true) 0) = [] /\
  after (New sampleGetLogger sampleRefusingRewriter sampleNewAPIClient
             (sampleConfig "" true) 0) = 0.
Proof.
  refine (let H := New_fails_iff sampleGetLogger sampleRefusingRewriter
                     sampleNewAPIClient (sampleConfig "" true) 0
                     (Error "bad rule") in _).
  destruct H as (Hiff & Hquiet & _).
  split; [apply Hiff; left; reflexivity | apply Hquiet; reflexivity].
Defined.

Lemma Scan_call_arguments_witness :
  onlySpace "42" = false /\
  exists v, In (CallFindItemIDByPath "u1" v "/data/movies/Inception" "42" None)
               (events (Scan (sampleTarget "" true refreshRefused) inception 0)).
Proof.
  refine (proj2 (proj2 (Scan_call_arguments
                          (sampleTarget "" true refreshRefused) inception 0))
                "42" (Some (Error "refresh refused")) _).
  simpl; tauto.
Defined.

Lemma Scan_failures_logged_witness :
  exists l,
    In (Log ErrorLevel (l ++ [Err (Error "refresh refused"); Str "itemId" "42"])
            "Jellyfin item refresh failed; falling back to library scan")
       (events (Scan (sampleTarget "" true refreshRefused) inception 0)).
Proof.
  refine (proj1 (proj2 (proj2 (Scan_failures_logged
                                 (sampleTarget "" true refreshRefused) inception 0)))
                "42" (Error "refresh refused") _).
  simpl; tauto.
Defined.
